(** * yab: the command-line entry point (main.go)

    A shallow embedding of [main.go]: positional-argument handling,
    method-descriptor resolution ([getMethodSpec]), request construction
    ([getRequest]), the deadline-bounded call ([makeRequest]) and the
    one-shot driver ([runWithOptions]).

    Go functions that live in other files or packages ([thrift.Parse],
    [getTransport], [Transport.Call], ...) are collaborators: they are
    fields of an environment [Env], and every call the code makes to one
    of them is recorded, in program order, in a call trace. *)

From Stdlib Require Import ZArith List String Ascii Bool Lia.
Import ListNotations.

Local Open Scope string_scope.
Local Open Scope list_scope.

(** ** Go values *)

(** [[]byte] *)
Definition bytes := list Byte.byte.

(** The newline a Go format string writes as a backslash followed by n. *)
Definition LF : string := String (ascii_of_nat 10) EmptyString.

(** Comparison of a Go string with the empty string. *)
Definition is_empty (s : string) : bool :=
  match s with
  | EmptyString => true
  | String _ _ => false
  end.

(** Go's [error] values.  An error built in main.go keeps the constructor
    call that made it ([errors.New], or [fmt.Errorf] with its format string
    and operands); an error handed back by a collaborator is [Foreign]. *)
Inductive error : Type :=
| errors_New (text : string)
| fmt_Errorf_q (format : string) (operand : string)
| fmt_Errorf_v (format : string) (operand : error)
| Foreign (text : string).

(** [var errHealthAndMethod = errors.New(...)] *)
Definition errHealthAndMethod : error :=
  errors_New "cannot specify method name and use --health".

(** [time.Duration], in nanoseconds as in package [time]. *)
Module time.
Definition Duration := Z.
Definition Nanosecond : Duration := 1%Z.
Definition Microsecond : Duration := (1000 * Nanosecond)%Z.
Definition Millisecond : Duration := (1000 * Microsecond)%Z.
Definition Second : Duration := (1000 * Millisecond)%Z.
End time.

(** [tchannel.NewContext(timeout)] gives a context that expires [timeout]
    after its creation.  The context keeps the timeout it was made with;
    its deadline is that much later than the clock reading at creation. *)
Record Context : Type := { ctx_timeout : time.Duration }.

Definition deadline (created : Z) (ctx : Context) : Z :=
  (created + ctx_timeout ctx)%Z.

(** [transport.Request] and [transport.Response]. *)
Module transport.
Record Request : Type := { Method : string; Body : bytes }.
Record Response : Type := { ResponseBody : bytes }.
End transport.

(** ** Option structs *)

(** Modelled from the spec: the option structs are declared outside
    main.go.  The fields [ThriftFile], [MethodName], [Health], [RequestJSON]
    and [ServiceName] are the ones main.go reads or writes; the rest follows
    the three configuration groups of section 6 (transport selection and
    peer list; request selection; benchmark parameters). *)
Record RequestOptions : Type := {
  ThriftFile : string;
  MethodName : string;
  RequestJSON : string;
  Health : bool
}.

Record TransportOptions : Type := {
  ServiceName : string;
  Peers : list string
}.

Record BenchmarkOptions : Type := {
  Concurrency : Z;
  Rate : Z;
  MaxDuration : time.Duration;
  MaxRequests : Z
}.

Record Options : Type := {
  TOpts : TransportOptions;
  ROpts : RequestOptions;
  BOpts : BenchmarkOptions
}.

(** [opts.MethodName = name] *)
Definition set_MethodName (name : string) (opts : RequestOptions)
  : RequestOptions :=
  {| ThriftFile := ThriftFile opts;
     MethodName := name;
     RequestJSON := RequestJSON opts;
     Health := Health opts |}.

Definition set_ROpts (r : RequestOptions) (opts : Options) : Options :=
  {| TOpts := TOpts opts; ROpts := r; BOpts := BOpts opts |}.

Definition set_ServiceName (name : string) (t : TransportOptions)
  : TransportOptions :=
  {| ServiceName := name; Peers := Peers t |}.

Definition set_RequestJSON (body : string) (opts : RequestOptions)
  : RequestOptions :=
  {| ThriftFile := ThriftFile opts;
     MethodName := MethodName opts;
     RequestJSON := body;
     Health := Health opts |}.

(** ** Positional arguments *)

(** [args[index]] for a Go [int] index: [None] is the run-time panic
    "index out of range". *)
Definition index_string (args : list string) (index : Z) : option string :=
  if (index <? 0)%Z then None else nth_error args (Z.to_nat index).

(** [func fromPositional(args []string, index int, s *string)].
    The argument [s] is the string the pointer refers to before the call and
    the result is that string after it; [None] is a panic. *)
Definition fromPositional (args : list string) (index : Z) (s : string)
  : option string :=
  if (Z.of_nat (List.length args) <=? index)%Z then Some s
  else
    match index_string args index with
    | None => None
    | Some a =>
        if negb (is_empty a) && is_empty s then Some a else Some s
    end.

(** The three calls at the end of [main], on the arguments the flag parser
    left over. *)
Definition main_positional (remaining : list string) (opts : Options)
  : option Options :=
  match fromPositional remaining 0 (ServiceName (TOpts opts)) with
  | None => None
  | Some service =>
      match fromPositional remaining 1 (MethodName (ROpts opts)) with
      | None => None
      | Some method =>
          match fromPositional remaining 2 (RequestJSON (ROpts opts)) with
          | None => None
          | Some body =>
              Some {| TOpts := set_ServiceName service (TOpts opts);
                      ROpts := set_RequestJSON body
                                 (set_MethodName method (ROpts opts));
                      BOpts := BOpts opts |}
          end
      end
  end.

(** ** Collaborators *)

(** A Go result pair [(T, error)]: a value with a nil error, or an error. *)
Inductive result (A : Type) : Type :=
| ok (a : A)
| fail (err : error).
Arguments ok {A} a.
Arguments fail {A} err.

(** Package [os]: what [os.Stat] reports about a path, and [os.IsNotExist]
    on the error part of that report. *)
Module os.
Inductive StatResult : Type :=
| FileInfo
| ErrNotExist
| ErrOther (text : string).

Definition IsNotExist (r : StatResult) : bool :=
  match r with
  | ErrNotExist => true
  | FileInfo | ErrOther _ => false
  end.
End os.

(** How a piece of the program ends: it returns a value, or the process
    has been terminated. *)
Inductive outcome (A : Type) : Type :=
| Done (a : A)
| Exited.
Arguments Done {A} a.
Arguments Exited {A}.

(** Everything main.go calls but does not define: the types of package
    [compile], [thrift] and [transport] it passes around, the file system
    behind [os.Stat], and the functions themselves.  The benchmark is one
    of them: [runBenchmark] is given the sink, the options, the descriptor
    and the request, and what it then does (its reports to the sink, its
    own calls) is a list of activities of a type of its own, together with
    how it ends: it returns, or the process is terminated while it runs. *)
Record Env : Type := {
  FunctionSpec : Type;
  ParsedModule : Type;
  ServiceSpec : Type;
  Transport : Type;
  RequestInput : Type;
  ResponseMap : Type;
  BenchmarkActivity : Type;
  getHealthSpec : string * FunctionSpec;
  os_Stat : string -> os.StatResult;
  thrift_Parse : string -> result ParsedModule;
  thrift_SplitMethod : string -> result (string * string);
  findService : ParsedModule -> string -> result ServiceSpec;
  findMethod : ServiceSpec -> string -> result FunctionSpec;
  getTransport : TransportOptions -> result Transport;
  getRequestInput : RequestOptions -> result RequestInput;
  thrift_RequestToBytes : FunctionSpec -> RequestInput -> result bytes;
  Transport_Call :
    Transport -> Context -> transport.Request -> result transport.Response;
  thrift_ResponseBytesToMap : FunctionSpec -> bytes -> result ResponseMap;
  json_MarshalIndent : ResponseMap -> string -> string -> result bytes;
  runBenchmark :
    Options -> FunctionSpec -> transport.Request ->
    list BenchmarkActivity * outcome unit
}.

(** An operand of a formatted print. *)
Inductive operand (E : Env) : Type :=
| op_error (err : error)
| op_bytes (bs : bytes)
| op_map (m : ResponseMap E).
Arguments op_error {E} err.
Arguments op_bytes {E} bs.
Arguments op_map {E} m.

(** One entry of the call trace: a call main.go makes to a collaborator,
    with the arguments it passes, or something the benchmark does once it
    has been called. *)
Inductive event (E : Env) : Type :=
| call_getHealthSpec
| call_os_Stat (name : string)
| call_thrift_Parse (file : string)
| call_thrift_SplitMethod (name : string)
| call_findService (parsed : ParsedModule E) (svc : string)
| call_findMethod (service : ServiceSpec E) (name : string)
| call_getTransport (topts : TransportOptions)
| call_getRequestInput (ropts : RequestOptions)
| call_thrift_RequestToBytes (method : FunctionSpec E) (input : RequestInput E)
| call_tchannel_NewContext (timeout : time.Duration)
| call_Transport_Call (t : Transport E) (ctx : Context)
    (request : transport.Request)
| call_cancel (ctx : Context)
| call_thrift_ResponseBytesToMap (method : FunctionSpec E) (body : bytes)
| call_json_MarshalIndent (m : ResponseMap E) (prefix indent : string)
| call_out_Printf (format : string) (args : list (operand E))
| call_out_Fatalf (format : string) (args : list (operand E))
| call_runBenchmark (opts : Options) (method : FunctionSpec E)
    (req : transport.Request)
| during_runBenchmark (activity : BenchmarkActivity E).
Arguments call_getHealthSpec {E}.
Arguments call_os_Stat {E} name.
Arguments call_thrift_Parse {E} file.
Arguments call_thrift_SplitMethod {E} name.
Arguments call_findService {E} parsed svc.
Arguments call_findMethod {E} service name.
Arguments call_getTransport {E} topts.
Arguments call_getRequestInput {E} ropts.
Arguments call_thrift_RequestToBytes {E} method input.
Arguments call_tchannel_NewContext {E} timeout.
Arguments call_Transport_Call {E} t ctx request.
Arguments call_cancel {E} ctx.
Arguments call_thrift_ResponseBytesToMap {E} method body.
Arguments call_json_MarshalIndent {E} m prefix indent.
Arguments call_out_Printf {E} format args.
Arguments call_out_Fatalf {E} format args.
Arguments call_runBenchmark {E} opts method req.
Arguments during_runBenchmark {E} activity.

(** ** The run monad *)

(** A computation: the calls it made, in order, and how it ended. *)
Definition M (E : Env) (A : Type) : Type := (list (event E) * outcome A)%type.

Definition ret {E : Env} {A : Type} (a : A) : M E A := ([], Done a).

Definition bind {E : Env} {A B : Type} (m : M E A) (k : A -> M E B)
  : M E B :=
  match m with
  | (t, Done a) => let (t', o) := k a in (t ++ t', o)
  | (t, Exited) => (t, Exited)
  end.

Notation "x <- m ;; k" := (bind m (fun x => k))
  (at level 61, m at next level, right associativity).
Notation "' pat <- m ;; k" := (bind m (fun x => match x with pat => k end))
  (at level 61, pat pattern, m at next level, right associativity).

(** A call to a collaborator: one trace entry, then the collaborator's
    answer. *)
Definition call {E : Env} {A : Type} (ev : event E) (answer : A) : M E A :=
  ([ev], Done answer).

Definition trace {E : Env} {A : Type} (m : M E A) : list (event E) := fst m.
Definition ending {E : Env} {A : Type} (m : M E A) : outcome A := snd m.

(** What the benchmark does, as part of the run that called it. *)
Definition benchmark {E : Env}
  (b : list (BenchmarkActivity E) * outcome unit) : M E unit :=
  (map during_runBenchmark (fst b), snd b).

(** ** The output sink *)

(** Modelled from the spec: the [output] interface is declared outside
    main.go.  Section 6 gives its two operations: a formatted print, and a
    fatal report that terminates the process, so nothing after a call to
    [Fatalf] runs. *)
Definition out_Printf {E : Env} (format : string) (args : list (operand E))
  : M E unit :=
  call (call_out_Printf format args) tt.

Definition out_Fatalf {E : Env} {A : Type} (format : string)
  (args : list (operand E)) : M E A :=
  ([call_out_Fatalf format args], Exited).

(** [if err != nil { out.Fatalf(format, err) }] after a call that returned
    [r]: the value goes on, the error is fatal. *)
Definition orFatalf {E : Env} {A : Type} (format : string) (r : result A)
  : M E A :=
  match r with
  | ok a => ret a
  | fail err => out_Fatalf format [op_error err]
  end.

(** ** main.go *)

Section Program.
Context {E : Env}.

(** [func isFileMissing(f string) bool] *)
Definition isFileMissing (f : string) : M E bool :=
  err <- call (call_os_Stat f) (os_Stat E f) ;;
  ret (os.IsNotExist err).

(** [func getMethodSpec(opts *RequestOptions)], which returns a
    [*compile.FunctionSpec] and an [error].
    [opts] is the struct behind the pointer when the call starts; the first
    component of the answer is that struct when the call returns. *)
Definition getMethodSpec (opts : RequestOptions)
  : M E (RequestOptions * result (FunctionSpec E)) :=
  if Health opts then
    if negb (is_empty (MethodName opts)) then
      ret (opts, fail errHealthAndMethod)
    else
      '(methodName, spec) <- call call_getHealthSpec (getHealthSpec E) ;;
      let opts := set_MethodName methodName opts in
      ret (opts, ok spec)
  else
  if is_empty (ThriftFile opts) then
    ret (opts, fail (errors_New "specify a Thrift file using --thrift"))
  else
  missing <- isFileMissing (ThriftFile opts) ;;
  if missing then
    ret (opts, fail (fmt_Errorf_q "cannot find Thrift file: %q"
                       (ThriftFile opts)))
  else
  parsed <- call (call_thrift_Parse (ThriftFile opts))
              (thrift_Parse E (ThriftFile opts)) ;;
  match parsed with
  | fail err =>
      ret (opts, fail (fmt_Errorf_v "could not parse Thrift file: %v" err))
  | ok parsed =>
  split <- call (call_thrift_SplitMethod (MethodName opts))
             (thrift_SplitMethod E (MethodName opts)) ;;
  match split with
  | fail err => ret (opts, fail err)
  | ok (thriftSvc, thriftMethod) =>
  service <- call (call_findService parsed thriftSvc)
               (findService E parsed thriftSvc) ;;
  match service with
  | fail err => ret (opts, fail err)
  | ok service =>
  method <- call (call_findMethod service thriftMethod)
              (findMethod E service thriftMethod) ;;
  match method with
  | fail err => ret (opts, fail err)
  | ok method => ret (opts, ok method)
  end end end end.

(** [func getRequest(opts RequestOptions, method *compile.FunctionSpec)],
    which returns a [*transport.Request] and an [error]. *)
Definition getRequest (opts : RequestOptions) (method : FunctionSpec E)
  : M E (result transport.Request) :=
  reqInput <- call (call_getRequestInput opts) (getRequestInput E opts) ;;
  match reqInput with
  | fail err => ret (fail err)
  | ok reqInput =>
  requestBytes <- call (call_thrift_RequestToBytes method reqInput)
                    (thrift_RequestToBytes E method reqInput) ;;
  match requestBytes with
  | fail err => ret (fail err)
  | ok requestBytes =>
      ret (ok {| transport.Method := MethodName opts;
                 transport.Body := requestBytes |})
  end end.

(** [tchannel.NewContext(timeout)]: the context, whose cancel function the
    caller holds. *)
Definition tchannel_NewContext (timeout : time.Duration) : M E Context :=
  call (call_tchannel_NewContext timeout) {| ctx_timeout := timeout |}.

(** [func makeRequest(t transport.Transport, request *transport.Request)],
    which returns a [*transport.Response] and an [error].  The deferred [cancel()] runs once the
    result of [t.Call] is in hand, just before the function returns. *)
Definition makeRequest (t : Transport E) (request : transport.Request)
  : M E (result transport.Response) :=
  ctx <- tchannel_NewContext time.Second ;;
  response <- call (call_Transport_Call t ctx request)
                (Transport_Call E t ctx request) ;;
  _ <- call (call_cancel ctx) tt ;;
  ret response.

(** [func runWithOptions(opts Options, out output)], called with a sink that
    follows the contract above.  [opts] is the function's own copy of the
    options; [getMethodSpec] is handed a pointer into it, so what it writes
    is seen by the later reads of [opts.ROpts].  The last statement calls
    [runBenchmark] with the same sink: the run goes on with what the
    benchmark does and ends as the benchmark ends. *)
Definition runWithOptions (opts : Options) : M E unit :=
  '(ropts, r) <- getMethodSpec (ROpts opts) ;;
  let opts := set_ROpts ropts opts in
  method <- orFatalf ("Failed while parsing input: %v" ++ LF) r ;;
  r <- call (call_getTransport (TOpts opts)) (getTransport E (TOpts opts)) ;;
  transport <- orFatalf ("Failed while parsing options: %v" ++ LF) r ;;
  r <- getRequest (ROpts opts) method ;;
  req <- orFatalf ("Failed while parsing request input: %v" ++ LF) r ;;
  r <- makeRequest transport req ;;
  response <- orFatalf ("Failed while making call: %v" ++ LF) r ;;
  r <- call (call_thrift_ResponseBytesToMap method
               (transport.ResponseBody response))
         (thrift_ResponseBytesToMap E method
            (transport.ResponseBody response)) ;;
  responseMap <- orFatalf ("Failed while parsing response: %v" ++ LF) r ;;
  r <- call (call_json_MarshalIndent responseMap EmptyString "  ")
         (json_MarshalIndent E responseMap EmptyString "  ") ;;
  bs <- match r with
        | ok bs => ret bs
        | fail err =>
            out_Fatalf
              ("Failed to convert map to JSON: %v" ++ LF ++ "Map: %+v" ++ LF)
              [op_error err; op_map responseMap]
        end ;;
  _ <- out_Printf ("%s" ++ LF ++ LF) [op_bytes bs] ;;
  _ <- call (call_runBenchmark opts method req) tt ;;
  benchmark (runBenchmark E opts method req).

End Program.

(** ** Reading a run *)

(** The value a computation returned, if it returned. *)
Definition returned {E : Env} {A : Type} (m : M E A) : option A :=
  match ending m with
  | Done a => Some a
  | Exited => None
  end.

(** The context [makeRequest] creates. *)
Definition call_context : Context := {| ctx_timeout := time.Second |}.

(** The formats of the six fatal reports and of the print, as written in
    [runWithOptions]. *)
Definition parsing_input : string := "Failed while parsing input: %v" ++ LF.
Definition parsing_options : string :=
  "Failed while parsing options: %v" ++ LF.
Definition parsing_request : string :=
  "Failed while parsing request input: %v" ++ LF.
Definition making_call : string := "Failed while making call: %v" ++ LF.
Definition parsing_response : string :=
  "Failed while parsing response: %v" ++ LF.
Definition converting_map : string :=
  "Failed to convert map to JSON: %v" ++ LF ++ "Map: %+v" ++ LF.
Definition print_body : string := "%s" ++ LF ++ LF.

(** The trace of a run up to and including the call and the deferred
    cancel: resolution [t0], transport construction, encoding [t1], then
    the three entries of [makeRequest]. *)
Definition sent_trace {E : Env} (opts : Options) (t0 : list (event E))
  (t : Transport E) (t1 : list (event E)) (req : transport.Request)
  : list (event E) :=
  t0 ++ call_getTransport (TOpts opts) :: t1 ++
    [call_tchannel_NewContext time.Second;
     call_Transport_Call t call_context req;
     call_cancel call_context].

(** A pre-flight error of the run with options [opts]: one of the three
    steps before the call returned an error.  [format] is the fatal report
    [runWithOptions] makes for that step. *)
Inductive preflight_error {E : Env} (opts : Options)
  : string -> error -> Prop :=
| resolution_error (t0 : list (event E)) (ropts : RequestOptions)
    (err : error) :
    getMethodSpec (ROpts opts) = (t0, Done (ropts, fail err)) ->
    preflight_error opts parsing_input err
| transport_error (t0 : list (event E)) (ropts : RequestOptions)
    (method : FunctionSpec E) (err : error) :
    getMethodSpec (ROpts opts) = (t0, Done (ropts, ok method)) ->
    getTransport E (TOpts opts) = fail err ->
    preflight_error opts parsing_options err
| request_error (t0 : list (event E)) (ropts : RequestOptions)
    (method : FunctionSpec E) (t : Transport E) (t1 : list (event E))
    (err : error) :
    getMethodSpec (ROpts opts) = (t0, Done (ropts, ok method)) ->
    getTransport E (TOpts opts) = ok t ->
    getRequest ropts method = (t1, Done (fail err)) ->
    preflight_error opts parsing_request err.

(** Kinds of trace entries. *)
Definition is_Fatalf {E : Env} (ev : event E) : bool :=
  match ev with call_out_Fatalf _ _ => true | _ => false end.

Definition is_Printf {E : Env} (ev : event E) : bool :=
  match ev with call_out_Printf _ _ => true | _ => false end.

Definition is_Call {E : Env} (ev : event E) : bool :=
  match ev with call_Transport_Call _ _ _ => true | _ => false end.

Definition is_getTransport {E : Env} (ev : event E) : bool :=
  match ev with call_getTransport _ => true | _ => false end.

Definition is_runBenchmark {E : Env} (ev : event E) : bool :=
  match ev with call_runBenchmark _ _ _ => true | _ => false end.

(** The call of [runBenchmark], or anything the benchmark does. *)
Definition is_benchmark {E : Env} (ev : event E) : bool :=
  match ev with
  | call_runBenchmark _ _ _ | during_runBenchmark _ => true
  | _ => false
  end.

(** Reading the IDL file: [os.Stat] on it, or [thrift.Parse]. *)
Definition is_file_access {E : Env} (ev : event E) : bool :=
  match ev with
  | call_os_Stat _ | call_thrift_Parse _ => true
  | _ => false
  end.

(** The calls [getMethodSpec] can make. *)
Definition is_resolution {E : Env} (ev : event E) : bool :=
  match ev with
  | call_getHealthSpec | call_os_Stat _ | call_thrift_Parse _
  | call_thrift_SplitMethod _ | call_findService _ _ | call_findMethod _ _ =>
      true
  | _ => false
  end.

(** The calls [getRequest] can make. *)
Definition is_encoding {E : Env} (ev : event E) : bool :=
  match ev with
  | call_getRequestInput _ | call_thrift_RequestToBytes _ _ => true
  | _ => false
  end.

(** ** A stub environment *)

(** A small world in the manner of the end-to-end example of section 8: one
    IDL file [echo.thrift] declaring [Echo::ping], a transport that sends
    the request body back, and a decoder whose values are strings or the
    floating-point NaN, which [encoding/json] refuses to marshal. *)
Module Stub.

Inductive value : Type :=
| Str (s : bytes)
| NaN.

Definition is_NaN (v : value) : bool :=
  match v with NaN => true | Str _ => false end.

Definition NaN_body : bytes := [Byte.x4e; Byte.x61; Byte.x4e].

Definition bytes_eqb (a b : bytes) : bool :=
  if list_eq_dec Byte.byte_eq_dec a b then true else false.

Definition decode (body : bytes) : list (string * value) :=
  if bytes_eqb body NaN_body then [("value", NaN)] else [("message", Str body)].

(** The text of a string between double quotes; the strings of the stub
    hold nothing that JSON would escape. *)
Definition quoted (s : bytes) : bytes := Byte.x22 :: s ++ [Byte.x22].

(** One member of an object on a line of its own, indented by two spaces:
    the quoted key, a colon, a space, the quoted string. *)
Definition render_member (kv : string * value) : bytes :=
  [Byte.x20; Byte.x20] ++ quoted (list_byte_of_string (fst kv)) ++
  [Byte.x3a; Byte.x20] ++
  match snd kv with Str s => quoted s | NaN => [] end.

Fixpoint render_members (m : list (string * value)) : bytes :=
  match m with
  | [] => []
  | [kv] => render_member kv ++ [Byte.x0a]
  | kv :: rest =>
      render_member kv ++ [Byte.x2c; Byte.x0a] ++ render_members rest
  end.

(** The object as [json.MarshalIndent] lays it out with an empty prefix
    and an indent of two spaces. *)
Definition render (m : list (string * value)) : bytes :=
  match m with
  | [] => [Byte.x7b; Byte.x7d]
  | _ :: _ => [Byte.x7b; Byte.x0a] ++ render_members m ++ [Byte.x7d]
  end.

Definition lookup_service (parsed : list (string * list string))
  (svc : string) : result (list string) :=
  match find (fun p => String.eqb (fst p) svc) parsed with
  | Some p => ok (snd p)
  | None => fail (Foreign "no such service")
  end.

Definition env : Env := {|
  FunctionSpec := string;
  ParsedModule := list (string * list string);
  ServiceSpec := list string;
  Transport := unit;
  RequestInput := bytes;
  ResponseMap := list (string * value);
  BenchmarkActivity := string;
  getHealthSpec := ("Meta::health", "health");
  os_Stat := fun f =>
    if String.eqb f "echo.thrift" then os.FileInfo else os.ErrNotExist;
  thrift_Parse := fun _ => ok [("Echo", ["ping"])];
  thrift_SplitMethod := fun name =>
    if String.eqb name "Echo::ping" then ok ("Echo", "ping")
    else fail (Foreign "invalid method");
  findService := lookup_service;
  findMethod := fun service name =>
    if existsb (String.eqb name) service then ok name
    else fail (Foreign "no such method");
  getTransport := fun topts =>
    match Peers topts with
    | [] => fail (Foreign "no peers")
    | _ :: _ => ok tt
    end;
  getRequestInput := fun ropts => ok (list_byte_of_string (RequestJSON ropts));
  thrift_RequestToBytes := fun _ input => ok input;
  Transport_Call := fun _ _ request =>
    ok {| transport.ResponseBody := transport.Body request |};
  thrift_ResponseBytesToMap := fun _ body => ok (decode body);
  json_MarshalIndent := fun m _ _ =>
    if existsb (fun kv => is_NaN (snd kv)) m
    then fail (Foreign "json: unsupported value: NaN")
    else ok (render m);
  runBenchmark := fun _ _ _ => ([], Done tt)
|}.

Definition topts : TransportOptions :=
  {| ServiceName := "echo"; Peers := ["localhost:4040"] |}.

Definition bopts : BenchmarkOptions :=
  {| Concurrency := 1%Z; Rate := 0%Z; MaxDuration := 0%Z;
     MaxRequests := 0%Z |}.

(** [yab --thrift echo.thrift echo Echo::ping <body>] *)
Definition ping (body : string) : Options :=
  {| TOpts := topts;
     ROpts := {| ThriftFile := "echo.thrift"; MethodName := "Echo::ping";
                 RequestJSON := body; Health := false |};
     BOpts := bopts |}.

(** [yab --health echo [method]] *)
Definition health (method : string) : Options :=
  {| TOpts := topts;
     ROpts := {| ThriftFile := EmptyString; MethodName := method;
                 RequestJSON := EmptyString; Health := true |};
     BOpts := bopts |}.

(** [yab --thrift <file> echo Echo::ping] *)
Definition with_file (file : string) : Options :=
  {| TOpts := topts;
     ROpts := {| ThriftFile := file; MethodName := "Echo::ping";
                 RequestJSON := EmptyString; Health := false |};
     BOpts := bopts |}.

End Stub.

(** ** More kinds of trace entries *)

(** The three entries of [makeRequest]: creating the context, the call
    under it, and the deferred cancel. *)
Definition is_dispatch {E : Env} (ev : event E) : bool :=
  match ev with
  | call_tchannel_NewContext _ | call_Transport_Call _ _ _ | call_cancel _ =>
      true
  | _ => false
  end.

(** Decoding and marshalling of the response. *)
Definition is_rendering {E : Env} (ev : event E) : bool :=
  match ev with
  | call_thrift_ResponseBytesToMap _ _ | call_json_MarshalIndent _ _ _ => true
  | _ => false
  end.

(** The method name a run puts on the wire: the health method's name under
    the health flag, the option's own otherwise. *)
Definition wire_method {E : Env} (ropts : RequestOptions) : string :=
  if Health ropts then fst (getHealthSpec E) else MethodName ropts.

(** ** The program entry *)

(** Package [flags]: the error type of the parser.  [ErrHelp] is the only
    error type main.go tells apart. *)
Module flags.
Inductive ErrorType : Type :=
| ErrHelp
| ErrOtherType (code : nat).

Record Error : Type := { ErrType : ErrorType; Message : string }.
End flags.

(** The [error] that [parser.Parse] returns: a [*flags.Error], for which
    the type assertion in [main] succeeds, or some other error. *)
Inductive parse_error : Type :=
| flags_Error (ferr : flags.Error)
| other_error (err : error).

(** What [parser.Parse] gives: the options as the flags have filled them
    in, with the arguments that are left over, or an error. *)
Inductive parsed : Type :=
| Parsed (opts : Options) (remaining : list string)
| ParseFailed (err : parse_error).

(** The command line of one invocation and the flag parser built for it:
    [os.Args], the groups [parser.Group.Find] knows, and the answer of
    [parser.Parse]. *)
Record CommandLine : Type := {
  Group : Type;
  os_Args : list string;
  Group_Find : string -> option Group;
  parser_Parse : parsed
}.

(** One entry of the trace of [main]: its own calls and assignments, and
    the entries of the run it starts. *)
Inductive main_event (E : Env) (C : CommandLine) : Type :=
| call_log_SetFlags (flag : Z)
| call_flags_NewParser
| set_Usage (text : string)
| call_Group_Find (group : string)
| set_ShortDescription (g : Group C) (text : string)
| call_WriteHelp
| call_parser_Parse
| call_os_Exit (code : Z)
| call_log_Fatalf (format : string) (err : parse_error)
| in_run (ev : event E).
Arguments call_log_SetFlags {E C} flag.
Arguments call_flags_NewParser {E C}.
Arguments set_Usage {E C} text.
Arguments call_Group_Find {E C} group.
Arguments set_ShortDescription {E C} g text.
Arguments call_WriteHelp {E C}.
Arguments call_parser_Parse {E C}.
Arguments call_os_Exit {E C} code.
Arguments call_log_Fatalf {E C} format err.
Arguments in_run {E C} ev.

(** How [main] stops short of returning: the process exits with a status
    ([os.Exit], or [log.Fatalf], which exits with status 1), the output
    sink terminates it, or a panic unwinds it. *)
Inductive stop : Type :=
| exits (code : Z)
| sink_exits
| panics (message : string).

(** A piece of [main]: its trace, and its value or the way it stopped. *)
Definition Main (E : Env) (C : CommandLine) (A : Type) : Type :=
  (list (main_event E C) * (A + stop))%type.

Definition main_bind {E : Env} {C : CommandLine} {A B : Type}
  (m : Main E C A) (k : A -> Main E C B) : Main E C B :=
  match m with
  | (t, inl a) => let (t', o) := k a in (t ++ t', o)
  | (t, inr s) => (t, inr s)
  end.

Notation "x <~ m ;; k" := (main_bind m (fun x => k))
  (at level 61, m at next level, right associativity).

Definition step {E : Env} {C : CommandLine} {A : Type}
  (ev : main_event E C) (answer : A) : Main E C A :=
  ([ev], inl answer).

Definition stops {E : Env} {C : CommandLine} {A : Type}
  (t : list (main_event E C)) (s : stop) : Main E C A :=
  (t, inr s).

(** A run inside [main], with [consoleOutput] as the sink. *)
Definition in_main {E : Env} {C : CommandLine} (run : M E unit)
  : Main E C unit :=
  (map in_run (trace run),
   match ending run with
   | Done u => inl u
   | Exited => inr sink_exits
   end).

Definition is_in_run {E : Env} {C : CommandLine} (ev : main_event E C)
  : bool :=
  match ev with in_run _ => true | _ => false end.

Definition is_log_Fatalf {E : Env} {C : CommandLine} (ev : main_event E C)
  : bool :=
  match ev with call_log_Fatalf _ _ => true | _ => false end.

Definition is_parser_Parse {E : Env} {C : CommandLine}
  (ev : main_event E C) : bool :=
  match ev with call_parser_Parse => true | _ => false end.

Section Entry.
Context {E : Env} {C : CommandLine}.

(** [func findGroup(parser *flags.Parser, group string) *flags.Group] *)
Definition findGroup (group : string) : Main E C (Group C) :=
  g <~ step (call_Group_Find group) (Group_Find C group) ;;
  match g with
  | Some g => (([], inl g) : Main E C (Group C))
  | None => stops [] (panics ("no group called " ++ group ++ " found."))
  end.

(** The three calls of [fromPositional] in [main]. *)
Definition positional (remaining : list string) (opts : Options)
  : Main E C Options :=
  match main_positional remaining opts with
  | Some opts => ([], inl opts)
  | None => stops [] (panics "index out of range")
  end.

(** [func main()] *)
Definition main : Main E C unit :=
  _ <~ step (call_log_SetFlags 0) tt ;;
  _ <~ step call_flags_NewParser tt ;;
  _ <~ step (set_Usage "[<service> <method> <body>] [OPTIONS]") tt ;;
  g <~ findGroup "transport" ;;
  _ <~ step (set_ShortDescription g "Transport Options") tt ;;
  g <~ findGroup "request" ;;
  _ <~ step (set_ShortDescription g "Request Options") tt ;;
  g <~ findGroup "benchmark" ;;
  _ <~ step (set_ShortDescription g "Benchmark Options") tt ;;
  if (List.length (os_Args C) <=? 1)%nat then
    step call_WriteHelp tt
  else
  r <~ step call_parser_Parse (parser_Parse C) ;;
  match r with
  | ParseFailed err =>
      _ <~ match err with
           | flags_Error {| flags.ErrType := flags.ErrHelp |} =>
               stops [call_os_Exit 0] (exits 0)
           | _ => (([], inl tt) : Main E C unit)
           end ;;
      stops [call_log_Fatalf "Failed to parse flags: %v" err] (exits 1)
  | Parsed opts remaining =>
      opts <~ positional remaining opts ;;
      in_main (runWithOptions opts)
  end.

End Entry.

(** The setup [main] does before it looks at the arguments, when the
    three groups are found. *)
Definition main_setup {E : Env} {C : CommandLine}
  (transport request benchmark : Group C) : list (main_event E C) :=
  [call_log_SetFlags 0; call_flags_NewParser;
   set_Usage "[<service> <method> <body>] [OPTIONS]";
   call_Group_Find "transport";
   set_ShortDescription transport "Transport Options";
   call_Group_Find "request";
   set_ShortDescription request "Request Options";
   call_Group_Find "benchmark";
   set_ShortDescription benchmark "Benchmark Options"].

(** Command lines for the stub environment: all three groups exist. *)
Module StubLine.

Definition find (group : string) : option string :=
  if existsb (String.eqb group) ["transport"; "request"; "benchmark"]
  then Some group else None.

Definition line (args : list string) (answer : parsed) : CommandLine :=
  {| Group := string; os_Args := args; Group_Find := find;
     parser_Parse := answer |}.

(** [yab --health echo Echo::ping] *)
Definition health_and_method : CommandLine :=
  line ["yab"; "--health"; "echo"; "Echo::ping"]
    (Parsed {| TOpts := {| ServiceName := EmptyString;
                           Peers := ["localhost:4040"] |};
               ROpts := {| ThriftFile := EmptyString;
                           MethodName := EmptyString;
                           RequestJSON := EmptyString; Health := true |};
               BOpts := Stub.bopts |}
       ["echo"; "Echo::ping"]).

(** [yab --thrift echo.thrift -p localhost:4040 echo Echo::ping hi] *)
Definition ping : CommandLine :=
  line ["yab"; "--thrift"; "echo.thrift"; "-p"; "localhost:4040";
        "echo"; "Echo::ping"; "hi"]
    (Parsed {| TOpts := {| ServiceName := EmptyString;
                           Peers := ["localhost:4040"] |};
               ROpts := {| ThriftFile := "echo.thrift";
                           MethodName := EmptyString;
                           RequestJSON := EmptyString; Health := false |};
               BOpts := Stub.bopts |}
       ["echo"; "Echo::ping"; "hi"]).

(** [yab --help] *)
Definition help : CommandLine :=
  line ["yab"; "--help"]
    (ParseFailed (flags_Error {| flags.ErrType := flags.ErrHelp;
                                 flags.Message := "Usage" |})).

(** [yab --nonsense] *)
Definition unknown_flag : CommandLine :=
  line ["yab"; "--nonsense"]
    (ParseFailed (flags_Error {| flags.ErrType := flags.ErrOtherType 1;
                                 flags.Message := "unknown flag" |})).

End StubLine.

(** The stub environment with a decoder that rejects every body. *)
Definition garbled_env : Env :=
  {| FunctionSpec := FunctionSpec Stub.env;
     ParsedModule := ParsedModule Stub.env;
     ServiceSpec := ServiceSpec Stub.env;
     Transport := Transport Stub.env;
     RequestInput := RequestInput Stub.env;
     ResponseMap := ResponseMap Stub.env;
     BenchmarkActivity := BenchmarkActivity Stub.env;
     getHealthSpec := getHealthSpec Stub.env;
     os_Stat := os_Stat Stub.env;
     thrift_Parse := thrift_Parse Stub.env;
     thrift_SplitMethod := thrift_SplitMethod Stub.env;
     findService := findService Stub.env;
     findMethod := findMethod Stub.env;
     getTransport := getTransport Stub.env;
     getRequestInput := getRequestInput Stub.env;
     thrift_RequestToBytes := thrift_RequestToBytes Stub.env;
     Transport_Call := Transport_Call Stub.env;
     thrift_ResponseBytesToMap := fun _ _ =>
       fail (Foreign "unexpected end of input");
     json_MarshalIndent := json_MarshalIndent Stub.env;
     runBenchmark := runBenchmark Stub.env |}.

(** The stub environment on a file system where every [os.Stat] fails for
    a reason other than the file not existing, and whose parser rejects
    what it reads. *)
Definition unreadable_env : Env :=
  {| FunctionSpec := FunctionSpec Stub.env;
     ParsedModule := ParsedModule Stub.env;
     ServiceSpec := ServiceSpec Stub.env;
     Transport := Transport Stub.env;
     RequestInput := RequestInput Stub.env;
     ResponseMap := ResponseMap Stub.env;
     BenchmarkActivity := BenchmarkActivity Stub.env;
     getHealthSpec := getHealthSpec Stub.env;
     os_Stat := fun _ => os.ErrOther "permission denied";
     thrift_Parse := fun _ => fail (Foreign "open: permission denied");
     thrift_SplitMethod := thrift_SplitMethod Stub.env;
     findService := findService Stub.env;
     findMethod := findMethod Stub.env;
     getTransport := getTransport Stub.env;
     getRequestInput := getRequestInput Stub.env;
     thrift_RequestToBytes := thrift_RequestToBytes Stub.env;
     Transport_Call := Transport_Call Stub.env;
     thrift_ResponseBytesToMap := thrift_ResponseBytesToMap Stub.env;
     json_MarshalIndent := json_MarshalIndent Stub.env;
     runBenchmark := runBenchmark Stub.env |}.

(** * Properties *)

(** ** Basic facts *)

Lemma is_empty_true (s : string) : is_empty s = true <-> s = EmptyString.
Proof.
  destruct s; simpl; split; intro H; try reflexivity; discriminate H.
Qed.

Lemma is_empty_false (s : string) : is_empty s = false <-> s <> EmptyString.
Proof.
  destruct s; simpl; split; intro H; try reflexivity; try discriminate H.
  - contradiction H; reflexivity.
  - discriminate.
Qed.

Lemma index_string_nonneg (args : list string) (index : Z) :
  (0 <= index)%Z ->
  index_string args index = nth_error args (Z.to_nat index).
Proof.
  intro H. unfold index_string.
  destruct (Z.ltb_spec index 0); [lia | reflexivity].
Qed.

Lemma nth_error_beyond (args : list string) (index : Z) :
  (Z.of_nat (List.length args) <= index)%Z ->
  nth_error args (Z.to_nat index) = None.
Proof.
  intro H. apply nth_error_None. lia.
Qed.

Lemma nth_error_within (args : list string) (index : Z) :
  (0 <= index < Z.of_nat (List.length args))%Z ->
  exists a, nth_error args (Z.to_nat index) = Some a.
Proof.
  intro H.
  destruct (nth_error args (Z.to_nat index)) as [a|] eqn:Hn.
  - exists a; reflexivity.
  - apply nth_error_None in Hn. lia.
Qed.

(** ** Positional arguments *)

(** What [fromPositional] computes for an index that is not negative. *)
Lemma fromPositional_nonneg (args : list string) (index : Z) (s : string) :
  (0 <= index)%Z ->
  fromPositional args index s =
  Some match nth_error args (Z.to_nat index) with
       | Some a => if negb (is_empty a) && is_empty s then a else s
       | None => s
       end.
Proof.
  intro Hi. unfold fromPositional.
  destruct (Z.leb_spec (Z.of_nat (List.length args)) index) as [Hle|Hlt].
  - rewrite (nth_error_beyond args index Hle). reflexivity.
  - rewrite (index_string_nonneg args index Hi).
    destruct (nth_error_within args index (conj Hi Hlt)) as [a Ha].
    rewrite Ha. destruct (negb (is_empty a) && is_empty s); reflexivity.
Qed.

(** C9, as amended: for every argument list, every index that is not
    negative and every target string, [fromPositional] returns without an
    out-of-range access; it stores [args[index]] in the target when the
    index is within bounds, [args[index]] is not empty and the target is
    empty, and whenever the target changes all three of these hold, so a
    non-empty target (a value given by a flag) is never overwritten. *)
Theorem fromPositional_assigns_only_to_empty_target
  (args : list string) (index : Z) (s : string) :
  (0 <= index)%Z ->
  exists s', fromPositional args index s = Some s' /\
    (forall a, nth_error args (Z.to_nat index) = Some a ->
               a <> EmptyString -> s = EmptyString -> s' = a) /\
    (s' <> s ->
       (index < Z.of_nat (List.length args))%Z /\
       s = EmptyString /\ s' <> EmptyString /\
       nth_error args (Z.to_nat index) = Some s') /\
    ((Z.of_nat (List.length args) <= index)%Z -> s' = s) /\
    (s <> EmptyString -> s' = s).
Proof.
  intro Hi. rewrite (fromPositional_nonneg args index s Hi).
  eexists; split; [reflexivity|].
  destruct (nth_error args (Z.to_nat index)) as [a|] eqn:Hn.
  - assert (Hlen : (index < Z.of_nat (List.length args))%Z).
    { assert (Hs : nth_error args (Z.to_nat index) <> None) by congruence.
      apply nth_error_Some in Hs. lia. }
    destruct (is_empty a) eqn:Ha; destruct (is_empty s) eqn:Hs; simpl.
    + apply is_empty_true in Ha, Hs. subst.
      repeat split; try congruence; intros; try congruence; lia.
    + apply is_empty_true in Ha. apply is_empty_false in Hs. subst.
      repeat split; try congruence; intros; try congruence; lia.
    + apply is_empty_false in Ha. apply is_empty_true in Hs. subst.
      repeat split; try congruence; intros; try congruence; lia.
    + apply is_empty_false in Ha, Hs.
      repeat split; try congruence; intros; try congruence; lia.
  - repeat split; try congruence; intros; congruence.
Qed.

Lemma fromPositional_assigns_only_to_empty_target_witness :
  (0 <= 1)%Z /\
  exists s', fromPositional ["echo"; "Echo::ping"] 1 EmptyString = Some s' /\
             s' = "Echo::ping".
Proof.
  split; [lia|].
  destruct (fromPositional_assigns_only_to_empty_target
              ["echo"; "Echo::ping"] 1 EmptyString ltac:(lia))
    as [s' [Hs' [Hset _]]].
  exists s'. split; [exact Hs'|].
  apply Hset; [reflexivity | discriminate | reflexivity].
Defined.

(** C9, as stated, fails at a negative index: the bounds test
    [len(args) <= index] lets it through and [args[index]] panics. *)
Lemma fromPositional_negative_index_panics :
  fromPositional ["echo"] (-1) EmptyString = None.
Proof. reflexivity. Qed.

(** X11: the three calls [main] makes use the indices 0, 1 and 2: they
    never panic, and an option a flag has set keeps its value. *)
Lemma main_positional_keeps_flags (remaining : list string) (opts : Options) :
  exists opts', main_positional remaining opts = Some opts' /\
    (ServiceName (TOpts opts) <> EmptyString ->
       ServiceName (TOpts opts') = ServiceName (TOpts opts)) /\
    (MethodName (ROpts opts) <> EmptyString ->
       MethodName (ROpts opts') = MethodName (ROpts opts)) /\
    (RequestJSON (ROpts opts) <> EmptyString ->
       RequestJSON (ROpts opts') = RequestJSON (ROpts opts)).
Proof.
  unfold main_positional.
  rewrite !fromPositional_nonneg by lia.
  eexists; split; [reflexivity|].
  cbn [TOpts ROpts ServiceName MethodName RequestJSON
       set_ServiceName set_RequestJSON set_MethodName].
  repeat split; intro H; apply is_empty_false in H; rewrite H;
    match goal with |- context [nth_error ?l ?n] =>
      destruct (nth_error l n) end;
    rewrite ?andb_false_r; reflexivity.
Qed.

(** ** The run monad *)

Lemma bind_Done {E : Env} {A B : Type} (m : M E A) (k : A -> M E B)
  (t : list (event E)) (a : A) :
  m = (t, Done a) -> bind m k = (t ++ trace (k a), ending (k a)).
Proof.
  intros ->. unfold bind, trace, ending. destruct (k a); reflexivity.
Qed.

Lemma bind_Exited {E : Env} {A B : Type} (m : M E A) (k : A -> M E B)
  (t : list (event E)) :
  m = (t, Exited) -> bind m k = (t, Exited).
Proof. intros ->. reflexivity. Qed.

Lemma bind_ret {E : Env} {A B : Type} (a : A) (k : A -> M E B) :
  bind (ret a) k = k a.
Proof. unfold bind, ret. destruct (k a); reflexivity. Qed.

Lemma bind_call {E : Env} {A B : Type} (ev : event E) (a : A)
  (k : A -> M E B) :
  bind (call ev a) k = (ev :: trace (k a), ending (k a)).
Proof. unfold bind, call, trace, ending. destruct (k a); reflexivity. Qed.

(** ** Resolving the method descriptor *)

Section Resolution.
Context {E : Env}.

(** Health flag and a method name: the first test of [getMethodSpec]. *)
Lemma getMethodSpec_health_conflict (opts : RequestOptions) :
  Health opts = true -> MethodName opts <> EmptyString ->
  getMethodSpec (E:=E) opts = ([], Done (opts, fail errHealthAndMethod)).
Proof.
  intros Hh Hm. apply is_empty_false in Hm.
  unfold getMethodSpec. rewrite Hh, Hm. reflexivity.
Qed.

(** Health flag and no method name: the synthetic descriptor. *)
Lemma getMethodSpec_health (opts : RequestOptions) :
  Health opts = true -> MethodName opts = EmptyString ->
  getMethodSpec (E:=E) opts =
  ([call_getHealthSpec],
   Done (set_MethodName (fst (getHealthSpec E)) opts,
         ok (snd (getHealthSpec E)))).
Proof.
  intros Hh Hm. apply is_empty_true in Hm.
  unfold getMethodSpec. rewrite Hh, Hm. simpl.
  destruct (getHealthSpec E); reflexivity.
Qed.

(** Without the health flag [getMethodSpec] returns, the struct behind
    the pointer is as it was, and only resolution calls were made. *)
Lemma getMethodSpec_no_health (opts : RequestOptions) :
  Health opts = false ->
  exists t r, getMethodSpec (E:=E) opts = (t, Done (opts, r)) /\
              forallb is_resolution t = true.
Proof.
  intro Hh. unfold getMethodSpec, isFileMissing. rewrite Hh.
  unfold bind, call, ret; simpl.
  destruct (is_empty (ThriftFile opts)); [do 2 eexists; split; reflexivity|].
  destruct (os.IsNotExist _); [do 2 eexists; split; reflexivity|].
  destruct (thrift_Parse E _) as [parsed|e];
    [|do 2 eexists; split; reflexivity].
  destruct (thrift_SplitMethod E _) as [[svc name]|e];
    [|do 2 eexists; split; reflexivity].
  destruct (findService E _ _) as [service|e];
    [|do 2 eexists; split; reflexivity].
  destruct (findMethod E _ _) as [method|e];
    do 2 eexists; split; reflexivity.
Qed.

(** [getMethodSpec] always returns, having made only resolution calls. *)
Lemma getMethodSpec_returns (opts : RequestOptions) :
  exists t o r, getMethodSpec (E:=E) opts = (t, Done (o, r)) /\
                forallb is_resolution t = true.
Proof.
  destruct (Health opts) eqn:Hh.
  - destruct (is_empty (MethodName opts)) eqn:Hm.
    + apply is_empty_true in Hm.
      rewrite (getMethodSpec_health opts Hh Hm).
      do 3 eexists; split; reflexivity.
    + apply is_empty_false in Hm.
      rewrite (getMethodSpec_health_conflict opts Hh Hm).
      do 3 eexists; split; reflexivity.
  - destruct (getMethodSpec_no_health opts Hh) as (t & r & Hg & Ht).
    exists t, opts, r. split; assumption.
Qed.

(** A missing IDL file: the two tests that come before [thrift.Parse]. *)
Lemma getMethodSpec_no_file (opts : RequestOptions) :
  Health opts = false -> ThriftFile opts = EmptyString ->
  getMethodSpec (E:=E) opts =
  ([], Done (opts, fail (errors_New "specify a Thrift file using --thrift"))).
Proof.
  intros Hh Hf. apply is_empty_true in Hf.
  unfold getMethodSpec. rewrite Hh, Hf. reflexivity.
Qed.

Lemma getMethodSpec_file_missing (opts : RequestOptions) :
  Health opts = false -> ThriftFile opts <> EmptyString ->
  os.IsNotExist (os_Stat E (ThriftFile opts)) = true ->
  getMethodSpec (E:=E) opts =
  ([call_os_Stat (ThriftFile opts)],
   Done (opts, fail (fmt_Errorf_q "cannot find Thrift file: %q"
                       (ThriftFile opts)))).
Proof.
  intros Hh Hf Hs. apply is_empty_false in Hf.
  unfold getMethodSpec, isFileMissing. rewrite Hh, Hf.
  unfold bind, call, ret; simpl. rewrite Hs. reflexivity.
Qed.

End Resolution.

(** ** Building and sending the request *)

Section Request.
Context {E : Env}.

Lemma getRequest_input_fails (opts : RequestOptions) (method : FunctionSpec E)
  (err : error) :
  getRequestInput E opts = fail err ->
  getRequest opts method = ([call_getRequestInput opts], Done (fail err)).
Proof. intro H. unfold getRequest, bind, call, ret. rewrite H. reflexivity. Qed.

Lemma getRequest_encoding_fails (opts : RequestOptions)
  (method : FunctionSpec E) (input : RequestInput E) (err : error) :
  getRequestInput E opts = ok input ->
  thrift_RequestToBytes E method input = fail err ->
  getRequest opts method =
  ([call_getRequestInput opts; call_thrift_RequestToBytes method input],
   Done (fail err)).
Proof.
  intros H1 H2. unfold getRequest, bind, call, ret. rewrite H1, H2.
  reflexivity.
Qed.

Lemma getRequest_encodes (opts : RequestOptions) (method : FunctionSpec E)
  (input : RequestInput E) (body : bytes) :
  getRequestInput E opts = ok input ->
  thrift_RequestToBytes E method input = ok body ->
  getRequest opts method =
  ([call_getRequestInput opts; call_thrift_RequestToBytes method input],
   Done (ok {| transport.Method := MethodName opts;
               transport.Body := body |})).
Proof.
  intros H1 H2. unfold getRequest, bind, call, ret. rewrite H1, H2.
  reflexivity.
Qed.

(** [getRequest] always returns, having made only encoding calls; a request
    it returns carries the method name of its options and the bytes the
    encoder produced. *)
Lemma getRequest_returns (opts : RequestOptions) (method : FunctionSpec E) :
  exists t r, getRequest opts method = (t, Done r) /\
              forallb is_encoding t = true /\
              forall req, r = ok req ->
                exists input,
                  getRequestInput E opts = ok input /\
                  thrift_RequestToBytes E method input =
                    ok (transport.Body req) /\
                  transport.Method req = MethodName opts.
Proof.
  destruct (getRequestInput E opts) as [input|e] eqn:H1.
  - destruct (thrift_RequestToBytes E method input) as [body|e] eqn:H2.
    + rewrite (getRequest_encodes opts method input body H1 H2).
      do 2 eexists; repeat split. intros req [= <-]. exists input.
      repeat split; assumption.
    + rewrite (getRequest_encoding_fails opts method input e H1 H2).
      do 2 eexists; repeat split. intros req [=].
  - rewrite (getRequest_input_fails opts method e H1).
    do 2 eexists; repeat split. intros req [=].
Qed.

Lemma makeRequest_trace (t : Transport E) (request : transport.Request) :
  makeRequest t request =
  ([call_tchannel_NewContext time.Second;
    call_Transport_Call t call_context request;
    call_cancel call_context],
   Done (Transport_Call E t call_context request)).
Proof. reflexivity. Qed.

End Request.

(** ** The one-shot run, stage by stage *)

Section Stages.
Context {E : Env}.
Variable opts : Options.

Lemma run_resolution_fails (t0 : list (event E)) (ropts : RequestOptions)
  (err : error) :
  getMethodSpec (ROpts opts) = (t0, Done (ropts, fail err)) ->
  runWithOptions opts =
  (t0 ++ [call_out_Fatalf parsing_input [op_error err]], Exited).
Proof.
  intro Hg. unfold runWithOptions, bind. rewrite Hg. reflexivity.
Qed.

Variables (t0 : list (event E)) (ropts : RequestOptions)
          (method : FunctionSpec E).
Hypothesis resolved :
  getMethodSpec (ROpts opts) = (t0, Done (ropts, ok method)).

Lemma run_transport_fails (err : error) :
  getTransport E (TOpts opts) = fail err ->
  runWithOptions opts =
  (t0 ++ [call_getTransport (TOpts opts);
          call_out_Fatalf parsing_options [op_error err]], Exited).
Proof.
  intro Ht. unfold runWithOptions, bind. rewrite resolved. simpl.
  rewrite Ht. reflexivity.
Qed.

Variable t : Transport E.
Hypothesis connected : getTransport E (TOpts opts) = ok t.

Lemma run_request_fails (t1 : list (event E)) (err : error) :
  getRequest ropts method = (t1, Done (fail err)) ->
  runWithOptions opts =
  (t0 ++ call_getTransport (TOpts opts) :: t1 ++
     [call_out_Fatalf parsing_request [op_error err]], Exited).
Proof.
  intro Hr. unfold runWithOptions, bind. rewrite resolved. simpl.
  rewrite connected. simpl. rewrite Hr. reflexivity.
Qed.

Variables (t1 : list (event E)) (req : transport.Request).
Hypothesis built : getRequest ropts method = (t1, Done (ok req)).

Lemma run_call_fails (err : error) :
  Transport_Call E t call_context req = fail err ->
  runWithOptions opts =
  (sent_trace opts t0 t t1 req ++
     [call_out_Fatalf making_call [op_error err]], Exited).
Proof.
  intro Hc. unfold runWithOptions, bind. rewrite resolved. simpl.
  rewrite connected. simpl. rewrite built. simpl.
  fold call_context. rewrite Hc. simpl.
  unfold sent_trace. rewrite <- !app_assoc. simpl. rewrite <- !app_assoc.
  reflexivity.
Qed.

Variable response : transport.Response.
Hypothesis answered : Transport_Call E t call_context req = ok response.

Lemma run_decoding_fails (err : error) :
  thrift_ResponseBytesToMap E method (transport.ResponseBody response)
    = fail err ->
  runWithOptions opts =
  (sent_trace opts t0 t t1 req ++
     [call_thrift_ResponseBytesToMap method
              (transport.ResponseBody response);
            call_out_Fatalf parsing_response [op_error err]], Exited).
Proof.
  intro Hd. unfold runWithOptions, bind. rewrite resolved. simpl.
  rewrite connected. simpl. rewrite built. simpl.
  fold call_context. rewrite answered. simpl. rewrite Hd. simpl.
  unfold sent_trace. rewrite <- !app_assoc. simpl. rewrite <- !app_assoc.
  reflexivity.
Qed.

Variable responseMap : ResponseMap E.
Hypothesis decoded :
  thrift_ResponseBytesToMap E method (transport.ResponseBody response)
    = ok responseMap.

Lemma run_marshal_fails (err : error) :
  json_MarshalIndent E responseMap EmptyString "  " = fail err ->
  runWithOptions opts =
  (sent_trace opts t0 t t1 req ++
     [call_thrift_ResponseBytesToMap method
              (transport.ResponseBody response);
            call_json_MarshalIndent responseMap EmptyString "  ";
            call_out_Fatalf converting_map
              [op_error err; op_map responseMap]], Exited).
Proof.
  intro Hj. unfold runWithOptions, bind. rewrite resolved. simpl.
  rewrite connected. simpl. rewrite built. simpl.
  fold call_context. rewrite answered. simpl. rewrite decoded. simpl.
  rewrite Hj. simpl.
  unfold sent_trace. rewrite <- !app_assoc. simpl. rewrite <- !app_assoc.
  reflexivity.
Qed.

Lemma run_prints (bs : bytes) :
  json_MarshalIndent E responseMap EmptyString "  " = ok bs ->
  runWithOptions opts =
  (sent_trace opts t0 t t1 req ++
     [call_thrift_ResponseBytesToMap method
              (transport.ResponseBody response);
            call_json_MarshalIndent responseMap EmptyString "  ";
            call_out_Printf print_body [op_bytes bs];
            call_runBenchmark (set_ROpts ropts opts) method req] ++
     map during_runBenchmark
       (fst (runBenchmark E (set_ROpts ropts opts) method req)),
   snd (runBenchmark E (set_ROpts ropts opts) method req)).
Proof.
  intro Hj. unfold runWithOptions, bind. rewrite resolved. simpl.
  rewrite connected. simpl. rewrite built. simpl.
  fold call_context. rewrite answered. simpl. rewrite decoded. simpl.
  rewrite Hj. simpl.
  unfold sent_trace. rewrite <- !app_assoc. simpl. rewrite <- !app_assoc.
  reflexivity.
Qed.

End Stages.

(** ** What a trace contains *)

Lemma filter_disjoint {A : Type} (p q : A -> bool) (l : list A) :
  (forall x, p x = true -> q x = false) ->
  forallb p l = true -> filter q l = [].
Proof.
  intros Hpq. induction l as [|x l IH]; simpl; [reflexivity|].
  intro H. apply andb_prop in H as [Hx Hl].
  rewrite (Hpq x Hx). apply IH, Hl.
Qed.

Section Quiet.
Context {E : Env}.

Lemma resolution_only (ropts : RequestOptions) (t0 : list (event E))
  (v : RequestOptions * result (FunctionSpec E)) :
  getMethodSpec ropts = (t0, Done v) -> forallb is_resolution t0 = true.
Proof.
  intro Hg. destruct (getMethodSpec_returns (E:=E) ropts) as (t & o & r & Hg' & Ht).
  rewrite Hg in Hg'. injection Hg' as -> _. exact Ht.
Qed.

Lemma encoding_only (ropts : RequestOptions) (method : FunctionSpec E)
  (t1 : list (event E)) (r : result transport.Request) :
  getRequest ropts method = (t1, Done r) -> forallb is_encoding t1 = true.
Proof.
  intro Hr.
  destruct (getRequest_returns ropts method) as (t & r' & Hr' & Ht & _).
  rewrite Hr in Hr'. injection Hr' as -> _. exact Ht.
Qed.

(** None of the calls of [getMethodSpec] or [getRequest] is a report to the
    sink, a transport construction, a network call or a benchmark. *)
Lemma resolution_quiet (q : event E -> bool) (l : list (event E)) :
  q = is_Fatalf \/ q = is_Printf \/ q = is_Call \/ q = is_getTransport \/
  q = is_runBenchmark ->
  forallb is_resolution l = true -> filter q l = [].
Proof.
  intros Hq. apply filter_disjoint. intros x Hx.
  destruct Hq as [-> | [-> | [-> | [-> | ->]]]];
    destruct x; try reflexivity; discriminate Hx.
Qed.

Lemma encoding_quiet (q : event E -> bool) (l : list (event E)) :
  q = is_Fatalf \/ q = is_Printf \/ q = is_Call \/ q = is_getTransport \/
  q = is_runBenchmark ->
  forallb is_encoding l = true -> filter q l = [].
Proof.
  intros Hq. apply filter_disjoint. intros x Hx.
  destruct Hq as [-> | [-> | [-> | [-> | ->]]]];
    destruct x; try reflexivity; discriminate Hx.
Qed.

(** What the benchmark does is none of the calls of [runWithOptions]
    itself. *)
Lemma during_quiet (q : event E -> bool) (l : list (BenchmarkActivity E)) :
  (forall a, q (during_runBenchmark a) = false) ->
  filter q (map during_runBenchmark l) = [].
Proof.
  intro Hq. induction l as [|a l IH]; simpl; [reflexivity|].
  rewrite Hq. exact IH.
Qed.

Lemma during_is_benchmark (l : list (BenchmarkActivity E)) :
  forallb is_benchmark (map (during_runBenchmark (E:=E)) l) = true.
Proof.
  induction l as [|a l IH]; simpl; [reflexivity | exact IH].
Qed.

End Quiet.

(** Splits a [filter] over the appends and conses of a stage trace and
    clears the parts that come from [getMethodSpec] and [getRequest]. *)
Ltac quiet Hres Henc :=
  unfold sent_trace;
  repeat (rewrite filter_app || simpl filter);
  repeat match goal with
    | |- context [filter ?q ?l] =>
        first [ rewrite (resolution_quiet q l) by (exact Hres || auto 10)
              | rewrite (encoding_quiet q l) by (exact Henc || auto 10) ]
    end;
  rewrite ?during_quiet by (intro; reflexivity);
  simpl.

(** Clears, from a [filter] over a stage trace, the parts that come from
    [getMethodSpec] and [getRequest], for any kind of entry neither of them
    produces. *)
Ltac hush Hres Henc :=
  unfold sent_trace;
  repeat (rewrite filter_app || simpl filter);
  repeat match goal with
    | |- context [filter ?q ?l] =>
        first
          [ rewrite (filter_disjoint is_resolution q l)
              by (exact Hres ||
                  (intros [] Hx; (reflexivity || discriminate Hx)))
          | rewrite (filter_disjoint is_encoding q l)
              by (exact Henc ||
                  (intros [] Hx; (reflexivity || discriminate Hx))) ]
    end;
  rewrite ?during_quiet by (intro; reflexivity);
  simpl.

(** ** Pre-flight errors *)

(** C1: with the health flag set and a method name given, [getMethodSpec]
    fails with [errHealthAndMethod] without calling anything, and the run
    consists of the fatal report of that error alone: no transport is
    constructed and no call is made. *)
Theorem health_and_method_rejected_before_network (E : Env) (opts : Options) :
  Health (ROpts opts) = true ->
  MethodName (ROpts opts) <> EmptyString ->
  getMethodSpec (E:=E) (ROpts opts) =
    ([], Done (ROpts opts, fail errHealthAndMethod)) /\
  errHealthAndMethod =
    errors_New "cannot specify method name and use --health" /\
  runWithOptions (E:=E) opts =
    ([call_out_Fatalf parsing_input [op_error errHealthAndMethod]], Exited) /\
  filter is_getTransport (trace (runWithOptions (E:=E) opts)) = [] /\
  filter is_Call (trace (runWithOptions (E:=E) opts)) = [].
Proof.
  intros Hh Hm.
  pose proof (getMethodSpec_health_conflict (E:=E) (ROpts opts) Hh Hm) as Hg.
  pose proof (run_resolution_fails opts [] (ROpts opts) _ Hg) as Hrun.
  simpl in Hrun. rewrite Hrun.
  repeat split; assumption || reflexivity.
Qed.

Lemma health_and_method_rejected_before_network_witness :
  runWithOptions (E:=Stub.env) (Stub.health "Echo::ping") =
  ([call_out_Fatalf parsing_input [op_error errHealthAndMethod]], Exited).
Proof.
  apply (health_and_method_rejected_before_network
           Stub.env (Stub.health "Echo::ping")).
  - reflexivity.
  - simpl. discriminate.
Defined.

(** C2: when [getMethodSpec], [getTransport] or [getRequest] returns an
    error, the run ends in the sink's fatal operation, the trace holds
    exactly one fatal report, which carries that error and is the last
    entry, and the trace holds no call of the transport. *)
Theorem preflight_error_is_fatal_before_call (E : Env) (opts : Options)
  (format : string) (err : error) :
  preflight_error (E:=E) opts format err ->
  ending (runWithOptions (E:=E) opts) = Exited /\
  filter is_Fatalf (trace (runWithOptions (E:=E) opts)) =
    [call_out_Fatalf format [op_error err]] /\
  (exists before,
     trace (runWithOptions (E:=E) opts) =
       before ++ [call_out_Fatalf format [op_error err]]) /\
  filter is_Call (trace (runWithOptions (E:=E) opts)) = [].
Proof.
  intros [t0 ropts e Hg | t0 ropts method e Hg Ht
         | t0 ropts method t t1 e Hg Ht Hr].
  - pose proof (resolution_only _ _ _ Hg) as Hres.
    rewrite (run_resolution_fails opts t0 ropts e Hg).
    unfold trace, ending; simpl. repeat split.
    + quiet Hres Hres. reflexivity.
    + eexists; reflexivity.
    + quiet Hres Hres. reflexivity.
  - pose proof (resolution_only _ _ _ Hg) as Hres.
    rewrite (run_transport_fails opts t0 ropts method Hg e Ht).
    unfold trace, ending; simpl. repeat split.
    + quiet Hres Hres. reflexivity.
    + exists (t0 ++ [call_getTransport (TOpts opts)]).
      rewrite <- app_assoc. reflexivity.
    + quiet Hres Hres. reflexivity.
  - pose proof (resolution_only _ _ _ Hg) as Hres.
    pose proof (encoding_only _ _ _ _ Hr) as Henc.
    rewrite (run_request_fails opts t0 ropts method Hg t Ht t1 e Hr).
    unfold trace, ending; simpl. repeat split.
    + quiet Hres Henc. reflexivity.
    + exists (t0 ++ call_getTransport (TOpts opts) :: t1).
      rewrite <- app_assoc. reflexivity.
    + quiet Hres Henc. reflexivity.
Qed.

Lemma preflight_error_is_fatal_before_call_witness :
  preflight_error (E:=Stub.env) (Stub.with_file "nope.thrift") parsing_input
    (fmt_Errorf_q "cannot find Thrift file: %q" "nope.thrift") /\
  filter is_Call
    (trace (runWithOptions (E:=Stub.env) (Stub.with_file "nope.thrift"))) = [].
Proof.
  assert (H : preflight_error (E:=Stub.env) (Stub.with_file "nope.thrift")
                parsing_input
                (fmt_Errorf_q "cannot find Thrift file: %q" "nope.thrift")).
  { eapply resolution_error. reflexivity. }
  split; [exact H|].
  apply (preflight_error_is_fatal_before_call Stub.env
           (Stub.with_file "nope.thrift") _ _ H).
Defined.

(** ** The call path *)

(** What a successful resolution leaves in the options. *)
Lemma resolved_options (E : Env) (ropts after : RequestOptions)
  (t0 : list (event E)) (method : FunctionSpec E) :
  getMethodSpec ropts = (t0, Done (after, ok method)) ->
  after = set_MethodName (wire_method (E:=E) ropts) ropts /\
  (Health ropts = false -> after = ropts).
Proof.
  intro Hg. unfold wire_method. destruct (Health ropts) eqn:Hh.
  - destruct (is_empty (MethodName ropts)) eqn:Hm.
    + apply is_empty_true in Hm.
      rewrite (getMethodSpec_health ropts Hh Hm) in Hg.
      injection Hg as _ <- _. split; [reflexivity | discriminate].
    + apply is_empty_false in Hm.
      rewrite (getMethodSpec_health_conflict ropts Hh Hm) in Hg.
      discriminate Hg.
  - destruct (getMethodSpec_no_health (E:=E) ropts Hh) as (t & r & Hg' & _).
    rewrite Hg in Hg'. injection Hg' as _ -> _.
    split; [|reflexivity]. destruct ropts; reflexivity.
Qed.

(** Once the request is built the run makes the call, whatever follows. *)
Lemma run_sends (E : Env) (opts : Options) (t0 : list (event E))
  (ropts : RequestOptions) (method : FunctionSpec E) (t : Transport E)
  (t1 : list (event E)) (req : transport.Request) :
  getMethodSpec (ROpts opts) = (t0, Done (ropts, ok method)) ->
  getTransport E (TOpts opts) = ok t ->
  getRequest ropts method = (t1, Done (ok req)) ->
  exists rest,
    trace (runWithOptions opts) = sent_trace opts t0 t t1 req ++ rest.
Proof.
  intros Hg Ht Hr.
  destruct (Transport_Call E t call_context req) as [response|e] eqn:Hc.
  - destruct (thrift_ResponseBytesToMap E method
                (transport.ResponseBody response)) as [m|e] eqn:Hd.
    + destruct (json_MarshalIndent E m EmptyString "  ") as [bs|e] eqn:Hj.
      * rewrite (run_prints opts t0 ropts method Hg t Ht t1 req Hr
                   response Hc m Hd bs Hj).
        eexists; reflexivity.
      * rewrite (run_marshal_fails opts t0 ropts method Hg t Ht t1 req Hr
                   response Hc m Hd e Hj).
        eexists; reflexivity.
    + rewrite (run_decoding_fails opts t0 ropts method Hg t Ht t1 req Hr
                 response Hc e Hd).
      eexists; reflexivity.
  - rewrite (run_call_fails opts t0 ropts method Hg t Ht t1 req Hr e Hc).
    eexists; reflexivity.
Qed.

(** A run that gets as far as building its request calls the transport
    exactly once, with that request. *)
Lemma run_calls_once (E : Env) (opts : Options) (t0 : list (event E))
  (ropts : RequestOptions) (method : FunctionSpec E) (t : Transport E)
  (t1 : list (event E)) (req : transport.Request) :
  getMethodSpec (ROpts opts) = (t0, Done (ropts, ok method)) ->
  getTransport E (TOpts opts) = ok t ->
  getRequest ropts method = (t1, Done (ok req)) ->
  filter is_Call (trace (runWithOptions opts)) =
    [call_Transport_Call t call_context req].
Proof.
  intros Hg Ht Hr.
  pose proof (resolution_only _ _ _ Hg) as Hres.
  pose proof (encoding_only _ _ _ _ Hr) as Henc.
  destruct (Transport_Call E t call_context req) as [response|e] eqn:Hc.
  - destruct (thrift_ResponseBytesToMap E method
                (transport.ResponseBody response)) as [m|e] eqn:Hd.
    + destruct (json_MarshalIndent E m EmptyString "  ") as [bs|e] eqn:Hj.
      * rewrite (run_prints opts t0 ropts method Hg t Ht t1 req Hr
                   response Hc m Hd bs Hj).
        unfold trace; simpl. quiet Hres Henc. reflexivity.
      * rewrite (run_marshal_fails opts t0 ropts method Hg t Ht t1 req Hr
                   response Hc m Hd e Hj).
        unfold trace; simpl. quiet Hres Henc. reflexivity.
    + rewrite (run_decoding_fails opts t0 ropts method Hg t Ht t1 req Hr
                 response Hc e Hd).
      unfold trace; simpl. quiet Hres Henc. reflexivity.
  - rewrite (run_call_fails opts t0 ropts method Hg t Ht t1 req Hr e Hc).
    unfold trace; simpl. quiet Hres Henc. reflexivity.
Qed.

(** C3, as amended: after the descriptor is resolved and the transport
    constructed, the run encodes the request input against the descriptor;
    if that fails it reports the error and neither builds nor sends
    anything; otherwise it builds the request whose [Method] is the method
    name of the request options as [getMethodSpec] left them and whose
    [Body] is the encoded bytes, and calls the transport with it under the
    one-second context; if the call fails it reports the error and decodes
    nothing; otherwise the next thing it does is decode the response body
    against the same descriptor.  The method name of those options is the
    one the user supplied when the health flag is unset, and the name of
    the synthetic health method when it is set. *)
Theorem one_shot_call_sequence (E : Env) (opts : Options)
  (t0 : list (event E)) (ropts : RequestOptions) (method : FunctionSpec E)
  (t : Transport E) :
  getMethodSpec (ROpts opts) = (t0, Done (ropts, ok method)) ->
  getTransport E (TOpts opts) = ok t ->
  let run := runWithOptions opts in
  let started := t0 ++ [call_getTransport (TOpts opts)] in
  (forall err,
     getRequestInput E ropts = fail err ->
     run = (started ++ [call_getRequestInput ropts;
                        call_out_Fatalf parsing_request [op_error err]],
            Exited)) /\
  (forall input,
     getRequestInput E ropts = ok input ->
     let encoded := started ++ [call_getRequestInput ropts;
                                call_thrift_RequestToBytes method input] in
     (forall err,
        thrift_RequestToBytes E method input = fail err ->
        run = (encoded ++ [call_out_Fatalf parsing_request [op_error err]],
               Exited)) /\
     (forall body,
        thrift_RequestToBytes E method input = ok body ->
        let req := {| transport.Method := MethodName ropts;
                      transport.Body := body |} in
        let sent := encoded ++ [call_tchannel_NewContext time.Second;
                                call_Transport_Call t call_context req;
                                call_cancel call_context] in
        ctx_timeout call_context = time.Second /\
        (forall err,
           Transport_Call E t call_context req = fail err ->
           run = (sent ++ [call_out_Fatalf making_call [op_error err]],
                  Exited)) /\
        (forall response,
           Transport_Call E t call_context req = ok response ->
           exists rest,
             trace run =
               sent ++ call_thrift_ResponseBytesToMap method
                         (transport.ResponseBody response) :: rest))) /\
  ropts = set_MethodName (wire_method (E:=E) (ROpts opts)) (ROpts opts) /\
  (Health (ROpts opts) = false ->
   ropts = ROpts opts /\ MethodName ropts = MethodName (ROpts opts)) /\
  (Health (ROpts opts) = true ->
   MethodName ropts = fst (getHealthSpec E)).
Proof.
  intros Hg Ht run started. subst run started.
  split; [|split; [|split; [|split]]].
  - intros err Hi.
    rewrite (run_request_fails opts t0 ropts method Hg t Ht _ err
               (getRequest_input_fails ropts method err Hi)).
    rewrite <- app_assoc. reflexivity.
  - intros input Hi encoded. subst encoded. split.
    + intros err He.
      rewrite (run_request_fails opts t0 ropts method Hg t Ht _ err
                 (getRequest_encoding_fails ropts method input err Hi He)).
      rewrite <- !app_assoc. reflexivity.
    + intros body He req sent. subst sent.
      pose proof (getRequest_encodes ropts method input body Hi He) as Hr.
      fold req in Hr. split; [reflexivity|]. split.
      * intros err Hc.
        rewrite (run_call_fails opts t0 ropts method Hg t Ht _ req Hr err Hc).
        unfold sent_trace. rewrite <- !app_assoc. reflexivity.
      * intros response Hc.
        destruct (thrift_ResponseBytesToMap E method
                    (transport.ResponseBody response)) as [m|e] eqn:Hd.
        -- destruct (json_MarshalIndent E m EmptyString "  ")
             as [bs|e] eqn:Hj.
           ++ rewrite (run_prints opts t0 ropts method Hg t Ht _ req Hr
                         response Hc m Hd bs Hj).
              unfold sent_trace, trace; simpl. eexists.
              rewrite <- !app_assoc. simpl. reflexivity.
           ++ rewrite (run_marshal_fails opts t0 ropts method Hg t Ht _ req
                         Hr response Hc m Hd e Hj).
              unfold sent_trace, trace; simpl. eexists.
              rewrite <- !app_assoc. simpl. reflexivity.
        -- rewrite (run_decoding_fails opts t0 ropts method Hg t Ht _ req Hr
                      response Hc e Hd).
           unfold sent_trace, trace; simpl. eexists.
           rewrite <- !app_assoc. simpl. reflexivity.
  - exact (proj1 (resolved_options E _ _ _ _ Hg)).
  - intro Hh.
    destruct (resolved_options E _ _ _ _ Hg) as (_ & Hsame).
    rewrite (Hsame Hh). split; reflexivity.
  - intro Hh.
    destruct (resolved_options E _ _ _ _ Hg) as (Hro & _).
    rewrite Hro. unfold wire_method. rewrite Hh. reflexivity.
Qed.

Lemma one_shot_call_sequence_witness :
  exists rest,
    trace (runWithOptions (E:=Stub.env) (Stub.ping "hi")) =
    [call_os_Stat "echo.thrift"; call_thrift_Parse "echo.thrift";
     call_thrift_SplitMethod "Echo::ping";
     call_findService (E:=Stub.env) [("Echo", ["ping"])] "Echo";
     call_findMethod (E:=Stub.env) ["ping"] "ping";
     call_getTransport Stub.topts;
     call_getRequestInput (ROpts (Stub.ping "hi"));
     call_thrift_RequestToBytes (E:=Stub.env) "ping" [Byte.x68; Byte.x69];
     call_tchannel_NewContext time.Second;
     call_Transport_Call (E:=Stub.env) tt call_context
       {| transport.Method := "Echo::ping";
          transport.Body := [Byte.x68; Byte.x69] |};
     call_cancel call_context;
     call_thrift_ResponseBytesToMap (E:=Stub.env) "ping"
       [Byte.x68; Byte.x69]] ++ rest.
Proof.
  destruct (one_shot_call_sequence Stub.env (Stub.ping "hi")
              _ _ _ _ eq_refl eq_refl) as (_ & Hseq & _).
  destruct (Hseq _ eq_refl) as (_ & Hsend).
  destruct (Hsend _ eq_refl) as (_ & _ & Hdecode).
  destruct (Hdecode _ eq_refl) as (rest & Hrest).
  exists rest. exact Hrest.
Defined.

(** C3, as stated, fails on the health path: the user supplied no method
    name, and the request that goes to the transport carries the name of
    the synthetic health method. *)
Lemma health_probe_sends_synthetic_method_name :
  MethodName (ROpts (Stub.health EmptyString)) = EmptyString /\
  filter is_Call
    (trace (runWithOptions (E:=Stub.env) (Stub.health EmptyString))) =
    [call_Transport_Call (E:=Stub.env) tt call_context
       {| transport.Method := "Meta::health"; transport.Body := [] |}] /\
  transport.Method
    {| transport.Method := "Meta::health"; transport.Body := [] |}
  <> MethodName (ROpts (Stub.health EmptyString)).
Proof.
  split; [reflexivity|]. split; [reflexivity | discriminate].
Qed.

(** ** The health probe and the IDL file *)

(** C4: with the health flag set and no method name, [getMethodSpec]
    succeeds with the descriptor of [getHealthSpec], whatever the Thrift
    file option holds: its only call is [getHealthSpec], so no file is
    looked up or parsed. *)
Theorem health_probe_returns_synthetic_descriptor (E : Env)
  (ropts : RequestOptions) :
  Health ropts = true ->
  MethodName ropts = EmptyString ->
  trace (getMethodSpec (E:=E) ropts) = [call_getHealthSpec] /\
  filter is_file_access (trace (getMethodSpec (E:=E) ropts)) = [] /\
  exists after,
    returned (getMethodSpec (E:=E) ropts) =
      Some (after, ok (snd (getHealthSpec E))) /\
    ThriftFile after = ThriftFile ropts.
Proof.
  intros Hh Hm. rewrite (getMethodSpec_health ropts Hh Hm).
  repeat split. eexists; split; reflexivity.
Qed.

Lemma health_probe_returns_synthetic_descriptor_witness :
  trace (getMethodSpec (E:=Stub.env)
           {| ThriftFile := "nope.thrift"; MethodName := EmptyString;
              RequestJSON := EmptyString; Health := true |}) =
  [call_getHealthSpec].
Proof.
  apply (health_probe_returns_synthetic_descriptor Stub.env
           {| ThriftFile := "nope.thrift"; MethodName := EmptyString;
              RequestJSON := EmptyString; Health := true |});
    reflexivity.
Defined.

(** C5: without the health flag, [getMethodSpec] rejects an empty Thrift
    file option with the error "specify a Thrift file using --thrift"
    before calling anything, and rejects a path that [os.Stat] reports as
    not existing with the error made from the format "cannot find Thrift
    file: %q" and that path, after the [os.Stat] call alone; in neither
    case is [thrift.Parse] called, and the options are left as they were. *)
Theorem missing_thrift_file_rejected_before_parsing (E : Env)
  (ropts : RequestOptions) :
  Health ropts = false ->
  (ThriftFile ropts = EmptyString ->
   getMethodSpec (E:=E) ropts =
     ([], Done (ropts,
                fail (errors_New "specify a Thrift file using --thrift")))) /\
  (ThriftFile ropts <> EmptyString ->
   os_Stat E (ThriftFile ropts) = os.ErrNotExist ->
   getMethodSpec (E:=E) ropts =
     ([call_os_Stat (ThriftFile ropts)],
      Done (ropts, fail (fmt_Errorf_q "cannot find Thrift file: %q"
                           (ThriftFile ropts))))).
Proof.
  intro Hh. split.
  - intro Hf. exact (getMethodSpec_no_file ropts Hh Hf).
  - intros Hf Hs. apply (getMethodSpec_file_missing ropts Hh Hf).
    rewrite Hs. reflexivity.
Qed.

Lemma missing_thrift_file_rejected_before_parsing_witness :
  getMethodSpec (E:=Stub.env) (ROpts (Stub.with_file "nope.thrift")) =
    ([call_os_Stat "nope.thrift"],
     Done (ROpts (Stub.with_file "nope.thrift"),
           fail (fmt_Errorf_q "cannot find Thrift file: %q" "nope.thrift")))
  /\
  getMethodSpec (E:=Stub.env) (ROpts (Stub.with_file EmptyString)) =
    ([], Done (ROpts (Stub.with_file EmptyString),
               fail (errors_New "specify a Thrift file using --thrift"))).
Proof.
  split.
  - apply (missing_thrift_file_rejected_before_parsing Stub.env
             (ROpts (Stub.with_file "nope.thrift")) eq_refl).
    + simpl. discriminate.
    + reflexivity.
  - apply (missing_thrift_file_rejected_before_parsing Stub.env
             (ROpts (Stub.with_file EmptyString)) eq_refl).
    reflexivity.
Defined.

(** ** The deadline *)

(** C6: [makeRequest] creates a context with a timeout of [time.Second],
    which is 1,000,000,000 nanoseconds, so that its deadline is one second
    after the moment of creation; it calls the transport exactly once, with
    that context and the given request; it cancels the context after the
    call and before returning, whether the call failed or not; and it
    returns what the call returned. *)
Theorem makeRequest_calls_under_one_second_deadline (E : Env)
  (t : Transport E) (request : transport.Request) :
  makeRequest t request =
    ([call_tchannel_NewContext time.Second;
      call_Transport_Call t call_context request;
      call_cancel call_context],
     Done (Transport_Call E t call_context request)) /\
  ctx_timeout call_context = 1000000000%Z /\
  (forall now : Z, deadline now call_context = (now + 1000000000)%Z) /\
  filter is_Call (trace (makeRequest t request)) =
    [call_Transport_Call t call_context request].
Proof.
  repeat split.
Qed.

(** ** What resolution does to the options *)

(** C7, as amended: [getMethodSpec] always returns; it never changes the
    fields [ThriftFile], [RequestJSON] and [Health]; it leaves the whole
    options struct unchanged whenever the health flag is unset, a method
    name was given, or it returns an error; and on the one remaining path,
    the health flag with no method name, it succeeds and overwrites
    [MethodName], and nothing else, with the name of the synthetic health
    method. *)
Theorem getMethodSpec_preserves_options (E : Env) (ropts : RequestOptions) :
  exists t after r,
    getMethodSpec (E:=E) ropts = (t, Done (after, r)) /\
    ThriftFile after = ThriftFile ropts /\
    RequestJSON after = RequestJSON ropts /\
    Health after = Health ropts /\
    (Health ropts = false -> after = ropts) /\
    (MethodName ropts <> EmptyString -> after = ropts) /\
    (forall err, r = fail err -> after = ropts) /\
    (Health ropts = true -> MethodName ropts = EmptyString ->
     r = ok (snd (getHealthSpec E)) /\
     after = set_MethodName (fst (getHealthSpec E)) ropts /\
     MethodName after = fst (getHealthSpec E)).
Proof.
  destruct (Health ropts) eqn:Hh.
  - destruct (is_empty (MethodName ropts)) eqn:Hm.
    + apply is_empty_true in Hm.
      rewrite (getMethodSpec_health ropts Hh Hm).
      do 3 eexists. split; [reflexivity|]. simpl.
      repeat split; congruence.
    + apply is_empty_false in Hm.
      rewrite (getMethodSpec_health_conflict ropts Hh Hm).
      do 3 eexists. split; [reflexivity|]. repeat split; congruence.
  - destruct (getMethodSpec_no_health (E:=E) ropts Hh) as (t & r & Hg & _).
    exists t, ropts, r. rewrite Hg. repeat split; congruence.
Qed.

Lemma getMethodSpec_preserves_options_witness :
  (exists t r,
     getMethodSpec (E:=Stub.env) (ROpts (Stub.ping "hi")) =
     (t, Done (ROpts (Stub.ping "hi"), r))) /\
  (exists t r,
     getMethodSpec (E:=Stub.env) (ROpts (Stub.health EmptyString)) =
     (t, Done (set_MethodName "Meta::health"
                 (ROpts (Stub.health EmptyString)), r))).
Proof.
  split.
  - destruct (getMethodSpec_preserves_options Stub.env
                (ROpts (Stub.ping "hi")))
      as (t & after & r & Hg & _ & _ & _ & Hsame & _).
    exists t, r. rewrite Hg. rewrite (Hsame eq_refl). reflexivity.
  - destruct (getMethodSpec_preserves_options Stub.env
                (ROpts (Stub.health EmptyString)))
      as (t & after & r & Hg & _ & _ & _ & _ & _ & _ & Hhealth).
    destruct (Hhealth eq_refl eq_refl) as (_ & Hafter & _).
    exists t, r. rewrite Hg, Hafter. reflexivity.
Defined.

(** C7, as stated, fails on the health path: the call returns with
    [MethodName] changed from the empty string to the health method's
    name. *)
Lemma health_probe_changes_options :
  getMethodSpec (E:=Stub.env) (ROpts (Stub.health EmptyString)) =
    ([call_getHealthSpec],
     Done ({| ThriftFile := EmptyString; MethodName := "Meta::health";
              RequestJSON := EmptyString; Health := true |},
           ok "health")) /\
  {| ThriftFile := EmptyString; MethodName := "Meta::health";
     RequestJSON := EmptyString; Health := true |}
  <> ROpts (Stub.health EmptyString).
Proof.
  split; [reflexivity | discriminate].
Qed.

(** C10: on the health path [getMethodSpec] returns with [MethodName] set
    to the name [getHealthSpec] gives; a run that goes on to build its
    request then calls the transport, once, with a request whose [Method]
    is that name; and on every other path [getMethodSpec] returns with the
    options struct as it was. *)
Theorem health_path_alone_writes_method_name (E : Env) (opts : Options) :
  let name := fst (getHealthSpec E) in
  let spec := snd (getHealthSpec E) in
  (Health (ROpts opts) = true -> MethodName (ROpts opts) = EmptyString ->
   returned (getMethodSpec (E:=E) (ROpts opts)) =
     Some (set_MethodName name (ROpts opts), ok spec) /\
   forall t input body,
     getTransport E (TOpts opts) = ok t ->
     getRequestInput E (set_MethodName name (ROpts opts)) = ok input ->
     thrift_RequestToBytes E spec input = ok body ->
     filter is_Call (trace (runWithOptions opts)) =
       [call_Transport_Call t call_context
          {| transport.Method := name; transport.Body := body |}]) /\
  (~ (Health (ROpts opts) = true /\ MethodName (ROpts opts) = EmptyString) ->
   exists t r,
     getMethodSpec (E:=E) (ROpts opts) = (t, Done (ROpts opts, r))).
Proof.
  intros name spec. split.
  - intros Hh Hm.
    pose proof (getMethodSpec_health (E:=E) (ROpts opts) Hh Hm) as Hg.
    fold name spec in Hg. split.
    + unfold returned, ending. rewrite Hg. reflexivity.
    + intros t input body Ht Hi He.
      pose proof (getRequest_encodes _ _ input body Hi He) as Hr.
      exact (run_calls_once E opts _ _ _ t _ _ Hg Ht Hr).
  - intro Hnot. destruct (Health (ROpts opts)) eqn:Hh.
    + destruct (is_empty (MethodName (ROpts opts))) eqn:Hm.
      * apply is_empty_true in Hm. contradiction Hnot. split; trivial.
      * apply is_empty_false in Hm.
        rewrite (getMethodSpec_health_conflict (ROpts opts) Hh Hm).
        do 2 eexists; reflexivity.
    + destruct (getMethodSpec_no_health (E:=E) (ROpts opts) Hh)
        as (t & r & Hg & _).
      exists t, r. exact Hg.
Qed.

Lemma health_path_alone_writes_method_name_witness :
  filter is_Call (trace (runWithOptions (E:=Stub.env)
                           (Stub.health EmptyString))) =
  [call_Transport_Call (E:=Stub.env) tt call_context
     {| transport.Method := "Meta::health"; transport.Body := [] |}].
Proof.
  destruct (health_path_alone_writes_method_name Stub.env
              (Stub.health EmptyString)) as (Hhealth & _).
  destruct (Hhealth eq_refl eq_refl) as (_ & Hwire).
  exact (Hwire tt [] [] eq_refl eq_refl eq_refl).
Defined.

(** ** Printing the response *)

(** C8, as amended: when the call succeeds and the response body decodes,
    the run marshals the decoded map (empty prefix, two-space indent) and
    then goes one of two ways.  If marshalling succeeds, it prints the
    marshalled bytes with the format "%s" and two newlines and then calls
    the benchmark, and the rest of the run is the benchmark's: before that
    print nothing was printed, nothing was reported as fatal and nothing
    of the benchmark took place.  If marshalling fails,
    it reports the error together with the map through the sink's fatal
    operation, as its last entry, and is terminated: nothing is printed
    and the benchmark is not called. *)
Theorem decoded_response_printed_before_benchmark (E : Env) (opts : Options)
  (t0 : list (event E)) (ropts : RequestOptions) (method : FunctionSpec E)
  (t : Transport E) (t1 : list (event E)) (req : transport.Request)
  (response : transport.Response) (responseMap : ResponseMap E) :
  getMethodSpec (ROpts opts) = (t0, Done (ropts, ok method)) ->
  getTransport E (TOpts opts) = ok t ->
  getRequest ropts method = (t1, Done (ok req)) ->
  Transport_Call E t call_context req = ok response ->
  thrift_ResponseBytesToMap E method (transport.ResponseBody response)
    = ok responseMap ->
  let run := runWithOptions (E:=E) opts in
  let before :=
    sent_trace opts t0 t t1 req ++
    [call_thrift_ResponseBytesToMap method (transport.ResponseBody response);
     call_json_MarshalIndent responseMap EmptyString "  "] in
  filter is_benchmark before = [] /\
  filter is_Printf before = [] /\
  filter is_Fatalf before = [] /\
  (forall bs,
     json_MarshalIndent E responseMap EmptyString "  " = ok bs ->
     trace run =
       before ++
       call_out_Printf print_body [op_bytes bs] ::
       call_runBenchmark (set_ROpts ropts opts) method req ::
       map during_runBenchmark
         (fst (runBenchmark E (set_ROpts ropts opts) method req)) /\
     ending run = snd (runBenchmark E (set_ROpts ropts opts) method req)) /\
  (forall err,
     json_MarshalIndent E responseMap EmptyString "  " = fail err ->
     run = (before ++
              [call_out_Fatalf converting_map
                 [op_error err; op_map responseMap]],
            Exited) /\
     filter is_Printf (trace run) = [] /\
     filter is_benchmark (trace run) = []).
Proof.
  intros Hg Ht Hr Hc Hd run before. subst run before.
  pose proof (resolution_only _ _ _ Hg) as Hres.
  pose proof (encoding_only _ _ _ _ Hr) as Henc.
  split; [hush Hres Henc; reflexivity|].
  split; [hush Hres Henc; reflexivity|].
  split; [hush Hres Henc; reflexivity|].
  split.
  - intros bs Hj.
    rewrite (run_prints opts t0 ropts method Hg t Ht t1 req Hr
               response Hc responseMap Hd bs Hj).
    unfold trace, ending; simpl. split; [|reflexivity].
    rewrite <- !app_assoc. reflexivity.
  - intros err Hj.
    rewrite (run_marshal_fails opts t0 ropts method Hg t Ht t1 req Hr
               response Hc responseMap Hd err Hj).
    unfold trace; simpl. repeat split.
    + rewrite <- !app_assoc. reflexivity.
    + hush Hres Henc. reflexivity.
    + hush Hres Henc. reflexivity.
Qed.

Lemma decoded_response_printed_before_benchmark_witness :
  (exists before,
     trace (runWithOptions (E:=Stub.env) (Stub.ping "hi")) =
     before ++
     [call_out_Printf print_body
        [op_bytes [Byte.x7b; Byte.x0a;
                   Byte.x20; Byte.x20; Byte.x22; Byte.x6d; Byte.x65;
                   Byte.x73; Byte.x73; Byte.x61; Byte.x67; Byte.x65;
                   Byte.x22; Byte.x3a; Byte.x20; Byte.x22; Byte.x68;
                   Byte.x69; Byte.x22; Byte.x0a; Byte.x7d]];
      call_runBenchmark (E:=Stub.env) (Stub.ping "hi") "ping"
        {| transport.Method := "Echo::ping";
           transport.Body := [Byte.x68; Byte.x69] |}] /\
     filter is_Printf before = [] /\
     filter is_benchmark before = []) /\
  (exists before,
     runWithOptions (E:=Stub.env) (Stub.ping "NaN") =
     (before ++
      [call_out_Fatalf converting_map
         [op_error (Foreign "json: unsupported value: NaN");
          op_map (E:=Stub.env) [("value", Stub.NaN)]]],
      Exited)).
Proof.
  split.
  - destruct (decoded_response_printed_before_benchmark Stub.env
                (Stub.ping "hi") _ _ _ _ _ _ _ _
                eq_refl eq_refl eq_refl eq_refl eq_refl)
      as (Hbench & Hprint & _ & Hprints & _).
    destruct (Hprints _ eq_refl) as (Htrace & _).
    eexists. split; [exact Htrace|]. split; [exact Hprint | exact Hbench].
  - destruct (decoded_response_printed_before_benchmark Stub.env
                (Stub.ping "NaN") _ _ _ _ _ _ _ _
                eq_refl eq_refl eq_refl eq_refl eq_refl)
      as (_ & _ & _ & _ & Hfails).
    destruct (Hfails _ eq_refl) as (Hrun & _).
    eexists. exact Hrun.
Defined.

(** C8, as stated, fails when the decoded map cannot be marshalled: the
    stub reply decodes, without error, to a map holding a NaN; the run then
    reports the marshalling error as fatal and prints nothing. *)
Lemma unmarshallable_response_not_printed :
  let run := runWithOptions (E:=Stub.env) (Stub.ping "NaN") in
  let req := {| transport.Method := "Echo::ping";
                transport.Body := Stub.NaN_body |} in
  Transport_Call Stub.env tt call_context req =
    ok {| transport.ResponseBody := Stub.NaN_body |} /\
  thrift_ResponseBytesToMap Stub.env "ping" Stub.NaN_body =
    ok [("value", Stub.NaN)] /\
  filter is_Call (trace run) =
    [call_Transport_Call (E:=Stub.env) tt call_context req] /\
  In (call_thrift_ResponseBytesToMap (E:=Stub.env) "ping" Stub.NaN_body)
     (trace run) /\
  filter is_Printf (trace run) = [] /\
  filter is_runBenchmark (trace run) = [] /\
  filter is_Fatalf (trace run) =
    [call_out_Fatalf converting_map
       [op_error (Foreign "json: unsupported value: NaN");
        op_map (E:=Stub.env) [("value", Stub.NaN)]]] /\
  ending run = Exited.
Proof.
  repeat split. simpl. tauto.
Qed.

(** * Further properties of main.go *)

(** ** Every shape a run can take *)

(** The run, case by case: which step ended it and what its trace is. *)
Lemma run_cases (E : Env) (opts : Options) :
  exists t0 ropts r,
    getMethodSpec (ROpts opts) = (t0, Done (ropts, r)) /\
    forallb is_resolution t0 = true /\
    match r with
    | fail err =>
        runWithOptions opts =
          (t0 ++ [call_out_Fatalf parsing_input [op_error err]], Exited)
    | ok method =>
    match getTransport E (TOpts opts) with
    | fail err =>
        runWithOptions opts =
          (t0 ++ [call_getTransport (TOpts opts);
                  call_out_Fatalf parsing_options [op_error err]], Exited)
    | ok t =>
    exists t1 rq,
      getRequest ropts method = (t1, Done rq) /\
      forallb is_encoding t1 = true /\
      match rq with
      | fail err =>
          runWithOptions opts =
            (t0 ++ call_getTransport (TOpts opts) :: t1 ++
               [call_out_Fatalf parsing_request [op_error err]], Exited)
      | ok req =>
      match Transport_Call E t call_context req with
      | fail err =>
          runWithOptions opts =
            (sent_trace opts t0 t t1 req ++
               [call_out_Fatalf making_call [op_error err]], Exited)
      | ok response =>
      match thrift_ResponseBytesToMap E method
              (transport.ResponseBody response) with
      | fail err =>
          runWithOptions opts =
            (sent_trace opts t0 t t1 req ++
               [call_thrift_ResponseBytesToMap method
                  (transport.ResponseBody response);
                call_out_Fatalf parsing_response [op_error err]], Exited)
      | ok m =>
      match json_MarshalIndent E m EmptyString "  " with
      | fail err =>
          runWithOptions opts =
            (sent_trace opts t0 t t1 req ++
               [call_thrift_ResponseBytesToMap method
                  (transport.ResponseBody response);
                call_json_MarshalIndent m EmptyString "  ";
                call_out_Fatalf converting_map
                  [op_error err; op_map m]], Exited)
      | ok bs =>
          runWithOptions opts =
            (sent_trace opts t0 t t1 req ++
               [call_thrift_ResponseBytesToMap method
                  (transport.ResponseBody response);
                call_json_MarshalIndent m EmptyString "  ";
                call_out_Printf print_body [op_bytes bs];
                call_runBenchmark (set_ROpts ropts opts) method req] ++
               map during_runBenchmark
                 (fst (runBenchmark E (set_ROpts ropts opts) method req)),
             snd (runBenchmark E (set_ROpts ropts opts) method req))
      end end end end end end.
Proof.
  destruct (getMethodSpec_returns (E:=E) (ROpts opts))
    as (t0 & ropts & r & Hg & Hres).
  exists t0, ropts, r. split; [exact Hg|]. split; [exact Hres|].
  destruct r as [method|e].
  2: { exact (run_resolution_fails opts t0 ropts e Hg). }
  destruct (getTransport E (TOpts opts)) as [t|e] eqn:Ht.
  2: { exact (run_transport_fails opts t0 ropts method Hg e Ht). }
  destruct (getRequest_returns ropts method) as (t1 & rq & Hr & Henc & _).
  exists t1, rq. split; [exact Hr|]. split; [exact Henc|].
  destruct rq as [req|e].
  2: { exact (run_request_fails opts t0 ropts method Hg t Ht t1 e Hr). }
  destruct (Transport_Call E t call_context req) as [response|e] eqn:Hc.
  2: { exact (run_call_fails opts t0 ropts method Hg t Ht t1 req Hr e Hc). }
  destruct (thrift_ResponseBytesToMap E method
              (transport.ResponseBody response)) as [m|e] eqn:Hd.
  2: { exact (run_decoding_fails opts t0 ropts method Hg t Ht t1 req Hr
                response Hc e Hd). }
  destruct (json_MarshalIndent E m EmptyString "  ") as [bs|e] eqn:Hj.
  - exact (run_prints opts t0 ropts method Hg t Ht t1 req Hr
             response Hc m Hd bs Hj).
  - exact (run_marshal_fails opts t0 ropts method Hg t Ht t1 req Hr
             response Hc m Hd e Hj).
Qed.

(** Takes a run apart along [run_cases]; each case is left with the
    equation of the run rewritten into the goal. *)
Ltac by_run_cases E opts :=
  let t0 := fresh "t0" in let ropts := fresh "ropts" in
  let r := fresh "r" in let Hg := fresh "Hg" in
  let Hres := fresh "Hres" in let Hrun := fresh "Hrun" in
  let t1 := fresh "t1" in let rq := fresh "rq" in
  let Hr := fresh "Hr" in let Henc := fresh "Henc" in
  destruct (run_cases E opts) as (t0 & ropts & r & Hg & Hres & Hrun);
  destruct r as [?method|?err];
  [ destruct (getTransport E (TOpts opts)) as [?t|?err] eqn:?Ht;
    [ destruct Hrun as (t1 & rq & Hr & Henc & Hrun);
      destruct rq as [?req|?err];
      [ destruct (Transport_Call E _ call_context _)
          as [?response|?err] eqn:?Hc;
        [ destruct (thrift_ResponseBytesToMap E _ _)
            as [?m|?err] eqn:?Hd;
          [ destruct (json_MarshalIndent E _ EmptyString "  ")
              as [?bs|?err] eqn:?Hj | ] | ] | ] | ] | ].

(** Two writings of one trace that differ in how the appends are nested. *)
Ltac same_trace :=
  unfold sent_trace; rewrite <- ?app_assoc; simpl; rewrite <- ?app_assoc;
  reflexivity.

(** ** The one-shot run as a whole *)

(** X1: every run of [runWithOptions] goes one of two ways.  Either it
    gets as far as the benchmark: then it prints, calls [runBenchmark]
    right after the print, everything after that call is what the benchmark
    does, and the run ends as the benchmark ends; before the print nothing
    was printed, nothing was reported as fatal and nothing of the benchmark
    took place.  Or it is terminated before that: then the fatal report is
    the last entry and the only one, nothing was printed and the benchmark
    was not called. *)
Theorem run_completes_or_reports_once (E : Env) (opts : Options) :
  let run := runWithOptions (E:=E) opts in
  (exists before bs o method req,
     trace run =
       before ++
       call_out_Printf print_body [op_bytes bs] ::
       call_runBenchmark o method req ::
       map during_runBenchmark (fst (runBenchmark E o method req)) /\
     ending run = snd (runBenchmark E o method req) /\
     filter is_Printf before = [] /\
     filter is_Fatalf before = [] /\
     filter is_benchmark before = [])
  \/
  (ending run = Exited /\
   (exists before format args,
      trace run = before ++ [call_out_Fatalf format args] /\
      filter is_Fatalf before = []) /\
   filter is_Printf (trace run) = [] /\
   filter is_benchmark (trace run) = []).
Proof.
  intro run. subst run.
  by_run_cases E opts; rewrite Hrun; unfold trace, ending; simpl.
  - left.
    exists (sent_trace opts t0 t t1 req ++
            [call_thrift_ResponseBytesToMap method
               (transport.ResponseBody response);
             call_json_MarshalIndent m EmptyString "  "]).
    eexists bs, _, _, _. split; [same_trace|].
    split; [reflexivity|].
    repeat split; hush Hres Henc; reflexivity.
  - right. split; [reflexivity|]. split; [|split; hush Hres Henc; reflexivity].
    exists (sent_trace opts t0 t t1 req ++
            [call_thrift_ResponseBytesToMap method
               (transport.ResponseBody response);
             call_json_MarshalIndent m EmptyString "  "]).
    eexists _, _. split; [same_trace|]. hush Hres Henc. reflexivity.
  - right. split; [reflexivity|]. split; [|split; hush Hres Henc; reflexivity].
    exists (sent_trace opts t0 t t1 req ++
            [call_thrift_ResponseBytesToMap method
               (transport.ResponseBody response)]).
    eexists _, _. split; [same_trace|]. hush Hres Henc. reflexivity.
  - right. split; [reflexivity|]. split; [|split; hush Hres Henc; reflexivity].
    exists (sent_trace opts t0 t t1 req).
    eexists _, _. split; [same_trace|]. hush Hres Henc. reflexivity.
  - right. split; [reflexivity|]. split; [|split; hush Hres Henc; reflexivity].
    exists (t0 ++ call_getTransport (TOpts opts) :: t1).
    eexists _, _. split; [same_trace|]. hush Hres Henc. reflexivity.
  - right. split; [reflexivity|]. split; [|split; hush Hres Hres; reflexivity].
    exists (t0 ++ [call_getTransport (TOpts opts)]).
    eexists _, _. split; [same_trace|]. hush Hres Hres. reflexivity.
  - right. split; [reflexivity|]. split; [|split; hush Hres Hres; reflexivity].
    exists t0.
    eexists _, _. split; [same_trace|]. hush Hres Hres. reflexivity.
Qed.

(** The transport calls of a run: none, or the one with the request that
    [getRequest] built from the resolved options. *)
Lemma run_call_filter (E : Env) (opts : Options) :
  filter is_Call (trace (runWithOptions (E:=E) opts)) = [] \/
  exists t0 ropts method t t1 req,
    getMethodSpec (ROpts opts) = (t0, Done (ropts, ok method)) /\
    getTransport E (TOpts opts) = ok t /\
    getRequest (E:=E) ropts method = (t1, Done (ok req)) /\
    filter is_Call (trace (runWithOptions (E:=E) opts)) =
      [call_Transport_Call t call_context req].
Proof.
  by_run_cases E opts.
  1-4: right; exists t0, ropts, method, t, t1, req;
       repeat split; try assumption;
       rewrite Hrun; unfold trace; simpl; hush Hres Henc; reflexivity.
  - left. rewrite Hrun; unfold trace; simpl. hush Hres Henc. reflexivity.
  - left. rewrite Hrun; unfold trace; simpl. hush Hres Hres. reflexivity.
  - left. rewrite Hrun; unfold trace; simpl. hush Hres Hres. reflexivity.
Qed.

(** X2: what [runWithOptions] itself does with the transport; nothing is
    said here of what the benchmark does once it is called.  When one of
    the three steps before the call returned an error, the run holds no
    creation of a call context, no call and no cancel, and the benchmark is
    never reached.  Otherwise the run is made of four parts: what comes
    before the call; then the creation of a context with the one-second
    timeout, one call under it on the transport that [getTransport]
    returned, and the cancelling of that context, one after the other; then
    what [runWithOptions] does with the answer; then, if it gets that far,
    the call of [runBenchmark] and the benchmark's doings.  The first and
    the third part hold no other creation, call or cancel, and nothing of
    the benchmark. *)
Theorem run_dispatches_once_unless_preflight_fails (E : Env)
  (opts : Options) :
  let run := runWithOptions (E:=E) opts in
  ((exists format err, preflight_error (E:=E) opts format err) /\
   filter is_dispatch (trace run) = [] /\
   filter is_benchmark (trace run) = [])
  \/
  ((forall format err, ~ preflight_error (E:=E) opts format err) /\
   exists t req before after bench,
     getTransport E (TOpts opts) = ok t /\
     trace run =
       before ++
       [call_tchannel_NewContext time.Second;
        call_Transport_Call t call_context req;
        call_cancel call_context] ++ after ++ bench /\
     filter is_dispatch (before ++ after) = [] /\
     filter is_benchmark (before ++ after) = [] /\
     forallb is_benchmark bench = true).
Proof.
  intro run. subst run.
  assert (Hnone : forall t0 ropts method t t1 req,
            getMethodSpec (E:=E) (ROpts opts)
              = (t0, Done (ropts, ok method)) ->
            getTransport E (TOpts opts) = ok t ->
            getRequest (E:=E) ropts method = (t1, Done (ok req)) ->
            forall format err, ~ preflight_error (E:=E) opts format err).
  { intros t0 ropts method t t1 req Hg Ht Hr format e Hpre.
    destruct Hpre as [? ? ? Hg' | ? ? ? ? Hg' Ht' | ? ? ? ? ? ? Hg' Ht' Hr'];
      rewrite Hg in Hg'.
    - discriminate Hg'.
    - congruence.
    - injection Hg' as <- <- <-. rewrite Hr in Hr'. discriminate Hr'. }
  by_run_cases E opts.
  - right. split; [exact (Hnone _ _ _ _ _ _ Hg eq_refl Hr)|].
    exists t, req, (t0 ++ call_getTransport (TOpts opts) :: t1),
      [call_thrift_ResponseBytesToMap method
         (transport.ResponseBody response);
       call_json_MarshalIndent m EmptyString "  ";
       call_out_Printf print_body [op_bytes bs]],
      (call_runBenchmark (set_ROpts ropts opts) method req ::
       map during_runBenchmark
         (fst (runBenchmark E (set_ROpts ropts opts) method req))).
    split; [reflexivity|]. rewrite Hrun; unfold trace; cbn [fst].
    split; [same_trace|].
    split; [hush Hres Henc; reflexivity|].
    split; [hush Hres Henc; reflexivity|].
    simpl. apply during_is_benchmark.
  - right. split; [exact (Hnone _ _ _ _ _ _ Hg eq_refl Hr)|].
    exists t, req, (t0 ++ call_getTransport (TOpts opts) :: t1),
      [call_thrift_ResponseBytesToMap method
         (transport.ResponseBody response);
       call_json_MarshalIndent m EmptyString "  ";
       call_out_Fatalf converting_map [op_error err; op_map m]], [].
    split; [reflexivity|]. rewrite Hrun; unfold trace; cbn [fst].
    split; [rewrite app_nil_r; same_trace|].
    repeat split; hush Hres Henc; reflexivity.
  - right. split; [exact (Hnone _ _ _ _ _ _ Hg eq_refl Hr)|].
    exists t, req, (t0 ++ call_getTransport (TOpts opts) :: t1),
      [call_thrift_ResponseBytesToMap method
         (transport.ResponseBody response);
       call_out_Fatalf parsing_response [op_error err]], [].
    split; [reflexivity|]. rewrite Hrun; unfold trace; cbn [fst].
    split; [rewrite app_nil_r; same_trace|].
    repeat split; hush Hres Henc; reflexivity.
  - right. split; [exact (Hnone _ _ _ _ _ _ Hg eq_refl Hr)|].
    exists t, req, (t0 ++ call_getTransport (TOpts opts) :: t1),
      [call_out_Fatalf making_call [op_error err]], [].
    split; [reflexivity|]. rewrite Hrun; unfold trace; cbn [fst].
    split; [rewrite app_nil_r; same_trace|].
    repeat split; hush Hres Henc; reflexivity.
  - left. split; [|split].
    + exists parsing_request, err.
      exact (request_error opts t0 ropts method t t1 err Hg Ht Hr).
    + rewrite Hrun; unfold trace; simpl. hush Hres Henc. reflexivity.
    + rewrite Hrun; unfold trace; simpl. hush Hres Henc. reflexivity.
  - left. split; [|split].
    + exists parsing_options, err.
      exact (transport_error opts t0 ropts method err Hg Ht).
    + rewrite Hrun; unfold trace; simpl. hush Hres Hres. reflexivity.
    + rewrite Hrun; unfold trace; simpl. hush Hres Hres. reflexivity.
  - left. split; [|split].
    + exists parsing_input, err.
      exact (resolution_error opts t0 ropts err Hg).
    + rewrite Hrun; unfold trace; simpl. hush Hres Hres. reflexivity.
    + rewrite Hrun; unfold trace; simpl. hush Hres Hres. reflexivity.
Qed.

(** X3: whatever call of the transport appears in the trace of a run, it
    was made on the transport [getTransport] returned, under the one-second
    context, with a request whose [Method] is the user's method name (the
    health method's name under the health flag) and whose [Body] is what
    [thrift.RequestToBytes] produced from the request input. *)
Theorem every_call_carries_the_built_request (E : Env) (opts : Options)
  (t : Transport E) (ctx : Context) (req : transport.Request) :
  In (call_Transport_Call t ctx req) (trace (runWithOptions (E:=E) opts)) ->
  ctx = call_context /\
  ctx_timeout ctx = time.Second /\
  getTransport E (TOpts opts) = ok t /\
  transport.Method req = wire_method (E:=E) (ROpts opts) /\
  exists method input,
    getRequestInput E
      (set_MethodName (wire_method (E:=E) (ROpts opts)) (ROpts opts))
      = ok input /\
    thrift_RequestToBytes E method input = ok (transport.Body req).
Proof.
  intro Hin.
  assert (Hf : In (call_Transport_Call t ctx req)
                 (filter is_Call (trace (runWithOptions (E:=E) opts)))).
  { apply filter_In. split; [exact Hin | reflexivity]. }
  destruct (run_call_filter E opts)
    as [Hnone | (t0 & ropts & method & t' & t1 & req' & Hg & Ht & Hr & Hone)].
  - rewrite Hnone in Hf. destruct Hf.
  - rewrite Hone in Hf. destruct Hf as [Heq | []].
    injection Heq as <- <- <-.
    destruct (resolved_options E _ _ _ _ Hg) as (Hro & _).
    destruct (getRequest_returns ropts method)
      as (t1' & rq & Hr' & _ & Hinv).
    rewrite Hr in Hr'. injection Hr' as _ <-.
    destruct (Hinv req' eq_refl) as (input & Hi & He & Hm).
    repeat split; try assumption.
    + rewrite Hm, Hro. reflexivity.
    + exists method, input. rewrite <- Hro. split; assumption.
Qed.

Lemma every_call_carries_the_built_request_witness :
  wire_method (E:=Stub.env) (ROpts (Stub.health EmptyString)) =
    "Meta::health" /\
  getTransport Stub.env (TOpts (Stub.health EmptyString)) = ok tt.
Proof.
  destruct (every_call_carries_the_built_request Stub.env
              (Stub.health EmptyString) tt call_context
              {| transport.Method := "Meta::health"; transport.Body := [] |})
    as (_ & _ & Ht & Hm & _).
  - simpl. tauto.
  - split; [symmetry; exact Hm | exact Ht].
Defined.

(** X4: when the call succeeds but the response body does not decode, the
    run reports the decoding error with the format "Failed while parsing
    response" as its last entry and is terminated: the map is never
    marshalled, nothing is printed and no benchmark is started. *)
Theorem response_decoding_error_is_fatal (E : Env) (opts : Options)
  (t0 : list (event E)) (ropts : RequestOptions) (method : FunctionSpec E)
  (t : Transport E) (t1 : list (event E)) (req : transport.Request)
  (response : transport.Response) (err : error) :
  getMethodSpec (ROpts opts) = (t0, Done (ropts, ok method)) ->
  getTransport E (TOpts opts) = ok t ->
  getRequest ropts method = (t1, Done (ok req)) ->
  Transport_Call E t call_context req = ok response ->
  thrift_ResponseBytesToMap E method (transport.ResponseBody response)
    = fail err ->
  let run := runWithOptions (E:=E) opts in
  run = (sent_trace opts t0 t t1 req ++
           [call_thrift_ResponseBytesToMap method
              (transport.ResponseBody response);
            call_out_Fatalf parsing_response [op_error err]], Exited) /\
  filter is_rendering (trace run) =
    [call_thrift_ResponseBytesToMap method
       (transport.ResponseBody response)] /\
  filter is_Printf (trace run) = [] /\
  filter is_runBenchmark (trace run) = [].
Proof.
  intros Hg Ht Hr Hc Hd run. subst run.
  pose proof (resolution_only _ _ _ Hg) as Hres.
  pose proof (encoding_only _ _ _ _ Hr) as Henc.
  rewrite (run_decoding_fails opts t0 ropts method Hg t Ht t1 req Hr
             response Hc err Hd).
  unfold trace; simpl.
  repeat split; hush Hres Henc; reflexivity.
Qed.

Lemma response_decoding_error_is_fatal_witness :
  filter is_Printf
    (trace (runWithOptions (E:=garbled_env) (Stub.ping "hi"))) = [] /\
  ending (runWithOptions (E:=garbled_env) (Stub.ping "hi")) = Exited.
Proof.
  destruct (response_decoding_error_is_fatal garbled_env (Stub.ping "hi")
              _ _ _ _ _ _ _ _ eq_refl eq_refl eq_refl eq_refl eq_refl)
    as (Hrun & _ & Hprint & _).
  split; [exact Hprint|]. rewrite Hrun. reflexivity.
Defined.

(** X5: a run that returns started the benchmark, once, with the method
    descriptor it resolved and with the very request it had sent on the
    wire; the options it hands to the benchmark are the caller's, except
    that under the health flag [MethodName] holds the health method's
    name. *)
Theorem benchmark_reuses_the_sent_request (E : Env) (opts : Options) :
  ending (runWithOptions (E:=E) opts) = Done tt ->
  exists t method req,
    filter is_Call (trace (runWithOptions (E:=E) opts)) =
      [call_Transport_Call t call_context req] /\
    filter is_runBenchmark (trace (runWithOptions (E:=E) opts)) =
      [call_runBenchmark
         (set_ROpts (set_MethodName (wire_method (E:=E) (ROpts opts))
                       (ROpts opts)) opts)
         method req] /\
    (exists t0 after,
       getMethodSpec (E:=E) (ROpts opts) = (t0, Done (after, ok method))) /\
    (Health (ROpts opts) = false ->
     set_ROpts (set_MethodName (wire_method (E:=E) (ROpts opts))
                  (ROpts opts)) opts = opts).
Proof.
  intro Hend.
  by_run_cases E opts; rewrite Hrun in Hend; try discriminate Hend.
  destruct (resolved_options E _ _ _ _ Hg) as (Hro & Hsame).
  exists t, method, req. rewrite Hrun. unfold trace; simpl.
  split; [hush Hres Henc; reflexivity|].
  split; [hush Hres Henc; rewrite Hro; reflexivity|].
  split; [exists t0, ropts; exact Hg|].
  intro Hh. rewrite <- Hro, (Hsame Hh). destruct opts; reflexivity.
Qed.

Lemma benchmark_reuses_the_sent_request_witness :
  exists method,
    filter is_runBenchmark
      (trace (runWithOptions (E:=Stub.env) (Stub.health EmptyString))) =
    [call_runBenchmark (E:=Stub.env)
       (Stub.health "Meta::health") method
       {| transport.Method := "Meta::health"; transport.Body := [] |}].
Proof.
  destruct (benchmark_reuses_the_sent_request Stub.env
              (Stub.health EmptyString) eq_refl)
    as (t & method & req & Hcall & Hbench & _).
  injection Hcall as _ <-.
  exists method. rewrite Hbench. reflexivity.
Defined.

(** ** Resolution against the IDL file *)

(** X6: without the health flag a descriptor comes back only along the full
    path: the Thrift file option is not empty, [os.Stat] did not report the
    file as not existing, the file parsed, [thrift.SplitMethod] split the
    method name into a service and a method, [findService] found the
    service in the parsed file and [findMethod] found in it the descriptor
    that is returned; the five calls were made once each, in this order. *)
Theorem resolved_descriptor_comes_from_the_idl (E : Env)
  (ropts after : RequestOptions) (t : list (event E))
  (method : FunctionSpec E) :
  Health ropts = false ->
  getMethodSpec (E:=E) ropts = (t, Done (after, ok method)) ->
  ThriftFile ropts <> EmptyString /\
  os.IsNotExist (os_Stat E (ThriftFile ropts)) = false /\
  exists parsed svc name service,
    thrift_Parse E (ThriftFile ropts) = ok parsed /\
    thrift_SplitMethod E (MethodName ropts) = ok (svc, name) /\
    findService E parsed svc = ok service /\
    findMethod E service name = ok method /\
    t = [call_os_Stat (ThriftFile ropts);
         call_thrift_Parse (ThriftFile ropts);
         call_thrift_SplitMethod (MethodName ropts);
         call_findService parsed svc;
         call_findMethod service name].
Proof.
  intros Hh Hg. unfold getMethodSpec, isFileMissing in Hg. rewrite Hh in Hg.
  unfold bind, call, ret in Hg; simpl in Hg.
  destruct (is_empty (ThriftFile ropts)) eqn:Hf; [discriminate Hg|].
  destruct (os.IsNotExist (os_Stat E (ThriftFile ropts))) eqn:Hs;
    [discriminate Hg|].
  destruct (thrift_Parse E (ThriftFile ropts)) as [parsed|e] eqn:Hp;
    [|discriminate Hg].
  destruct (thrift_SplitMethod E (MethodName ropts)) as [[svc name]|e]
    eqn:Hsp; [|discriminate Hg].
  destruct (findService E parsed svc) as [service|e] eqn:Hsv;
    [|discriminate Hg].
  destruct (findMethod E service name) as [found|e] eqn:Hm;
    [|discriminate Hg].
  simpl in Hg. injection Hg as <- _ <-.
  split; [apply is_empty_false; exact Hf|]. split; [reflexivity|].
  exists parsed, svc, name, service. repeat split; assumption.
Qed.

Lemma resolved_descriptor_comes_from_the_idl_witness :
  exists parsed svc name service,
    thrift_Parse Stub.env "echo.thrift" = ok parsed /\
    thrift_SplitMethod Stub.env "Echo::ping" = ok (svc, name) /\
    findService Stub.env parsed svc = ok service /\
    findMethod Stub.env service name = ok "ping".
Proof.
  destruct (resolved_descriptor_comes_from_the_idl Stub.env
              (ROpts (Stub.ping "hi")) _ _ _ eq_refl eq_refl)
    as (_ & _ & parsed & svc & name & service & Hp & Hs & Hsv & Hm & _).
  exists parsed, svc, name, service. repeat split; assumption.
Defined.

(** X7: once the file is there, the errors of resolution are passed on as
    follows: an error of [thrift.Parse] comes back wrapped by the format
    "could not parse Thrift file: %v", and the method name is not even
    split; an error of [thrift.SplitMethod], [findService] or [findMethod]
    comes back as it is; in every case the options are untouched. *)
Theorem parse_error_is_wrapped_lookup_errors_are_not (E : Env)
  (ropts : RequestOptions) :
  Health ropts = false ->
  ThriftFile ropts <> EmptyString ->
  os.IsNotExist (os_Stat E (ThriftFile ropts)) = false ->
  let file := ThriftFile ropts in
  let opened := [call_os_Stat file; call_thrift_Parse file] in
  (forall err,
     thrift_Parse E file = fail err ->
     getMethodSpec (E:=E) ropts =
       (opened,
        Done (ropts,
              fail (fmt_Errorf_v "could not parse Thrift file: %v" err)))) /\
  (forall parsed,
     thrift_Parse E file = ok parsed ->
     let split := opened ++ [call_thrift_SplitMethod (MethodName ropts)] in
     (forall err,
        thrift_SplitMethod E (MethodName ropts) = fail err ->
        getMethodSpec (E:=E) ropts = (split, Done (ropts, fail err))) /\
     (forall svc name,
        thrift_SplitMethod E (MethodName ropts) = ok (svc, name) ->
        (forall err,
           findService E parsed svc = fail err ->
           getMethodSpec (E:=E) ropts =
             (split ++ [call_findService parsed svc],
              Done (ropts, fail err))) /\
        (forall service err,
           findService E parsed svc = ok service ->
           findMethod E service name = fail err ->
           getMethodSpec (E:=E) ropts =
             (split ++ [call_findService parsed svc;
                        call_findMethod service name],
              Done (ropts, fail err))))).
Proof.
  intros Hh Hf Hs file opened. subst file opened.
  apply is_empty_false in Hf.
  unfold getMethodSpec, isFileMissing. rewrite Hh, Hf.
  unfold bind, call, ret; simpl. rewrite Hs.
  split.
  - intros err Hp. rewrite Hp. reflexivity.
  - intros parsed Hp. rewrite Hp. split.
    + intros err Hsp. rewrite Hsp. reflexivity.
    + intros svc name Hsp. rewrite Hsp. split.
      * intros err Hsv. rewrite Hsv. reflexivity.
      * intros service err Hsv Hm. rewrite Hsv, Hm. reflexivity.
Qed.

Lemma parse_error_is_wrapped_lookup_errors_are_not_witness :
  getMethodSpec (E:=Stub.env)
    {| ThriftFile := "echo.thrift"; MethodName := "Echo::pong";
       RequestJSON := EmptyString; Health := false |} =
  ([call_os_Stat "echo.thrift"; call_thrift_Parse "echo.thrift";
    call_thrift_SplitMethod "Echo::pong"],
   Done ({| ThriftFile := "echo.thrift"; MethodName := "Echo::pong";
            RequestJSON := EmptyString; Health := false |},
         fail (Foreign "invalid method"))).
Proof.
  destruct (parse_error_is_wrapped_lookup_errors_are_not Stub.env
              {| ThriftFile := "echo.thrift"; MethodName := "Echo::pong";
                 RequestJSON := EmptyString; Health := false |}
              eq_refl ltac:(discriminate) eq_refl) as (_ & Hlookup).
  destruct (Hlookup _ eq_refl) as (Hsplit & _).
  exact (Hsplit _ eq_refl).
Defined.

(** X8: only "does not exist" counts as a missing file.  When [os.Stat]
    fails for any other reason, [getMethodSpec] does not return the "cannot
    find Thrift file" error: it goes on to [thrift.Parse] with the same
    path, and what comes back is decided from there. *)
Theorem unreadable_file_is_still_parsed (E : Env) (ropts : RequestOptions)
  (text : string) :
  Health ropts = false ->
  ThriftFile ropts <> EmptyString ->
  os_Stat E (ThriftFile ropts) = os.ErrOther text ->
  returned (isFileMissing (E:=E) (ThriftFile ropts)) = Some false /\
  (exists rest,
     trace (getMethodSpec (E:=E) ropts) =
       call_os_Stat (ThriftFile ropts) ::
       call_thrift_Parse (ThriftFile ropts) :: rest) /\
  (forall err,
     thrift_Parse E (ThriftFile ropts) = fail err ->
     returned (getMethodSpec (E:=E) ropts) =
       Some (ropts,
             fail (fmt_Errorf_v "could not parse Thrift file: %v" err))).
Proof.
  intros Hh Hf Hs. apply is_empty_false in Hf.
  unfold getMethodSpec, isFileMissing, returned, ending, trace.
  rewrite Hh, Hf. unfold bind, call, ret; simpl. rewrite Hs; simpl.
  split; [reflexivity|]. split.
  - destruct (thrift_Parse E (ThriftFile ropts)) as [parsed|e];
      [|eexists; reflexivity].
    destruct (thrift_SplitMethod E (MethodName ropts)) as [[svc name]|e];
      [|eexists; reflexivity].
    destruct (findService E parsed svc) as [service|e];
      [|eexists; reflexivity].
    destruct (findMethod E service name) as [found|e];
      eexists; reflexivity.
  - intros err Hp. rewrite Hp. reflexivity.
Qed.

Lemma unreadable_file_is_still_parsed_witness :
  returned (getMethodSpec (E:=unreadable_env)
              (ROpts (Stub.with_file "secret.thrift"))) =
  Some (ROpts (Stub.with_file "secret.thrift"),
        fail (fmt_Errorf_v "could not parse Thrift file: %v"
                (Foreign "open: permission denied"))).
Proof.
  destruct (unreadable_file_is_still_parsed unreadable_env
              (ROpts (Stub.with_file "secret.thrift")) "permission denied"
              eq_refl ltac:(discriminate) eq_refl) as (_ & _ & Hparse).
  exact (Hparse _ eq_refl).
Defined.

(** ** Building the request *)

(** X9: [getRequest] returns a request only when both the request input was
    read and the encoder accepted it, and then the request holds the method
    name of the options and the encoder's bytes; when it returns an error,
    that error is, unwrapped, the one [getRequestInput] returned, or else
    the one [thrift.RequestToBytes] returned for the input that was read;
    the encoder is not called on a failed read. *)
Theorem getRequest_result_comes_from_its_two_steps (E : Env)
  (opts : RequestOptions) (method : FunctionSpec E) (t : list (event E))
  (r : result transport.Request) :
  getRequest (E:=E) opts method = (t, Done r) ->
  match r with
  | ok req =>
      exists input,
        getRequestInput E opts = ok input /\
        thrift_RequestToBytes E method input = ok (transport.Body req) /\
        transport.Method req = MethodName opts /\
        t = [call_getRequestInput opts;
             call_thrift_RequestToBytes method input]
  | fail err =>
      (getRequestInput E opts = fail err /\
       t = [call_getRequestInput opts]) \/
      (exists input,
         getRequestInput E opts = ok input /\
         thrift_RequestToBytes E method input = fail err /\
         t = [call_getRequestInput opts;
              call_thrift_RequestToBytes method input])
  end.
Proof.
  intro Hr.
  destruct (getRequestInput E opts) as [input|e] eqn:Hi.
  - destruct (thrift_RequestToBytes E method input) as [body|e] eqn:He.
    + rewrite (getRequest_encodes opts method input body Hi He) in Hr.
      injection Hr as <- <-. exists input. repeat split; assumption.
    + rewrite (getRequest_encoding_fails opts method input e Hi He) in Hr.
      injection Hr as <- <-. right. exists input. repeat split; assumption.
  - rewrite (getRequest_input_fails opts method e Hi) in Hr.
    injection Hr as <- <-. left. split; reflexivity.
Qed.

Lemma getRequest_result_comes_from_its_two_steps_witness :
  exists input,
    getRequestInput Stub.env (ROpts (Stub.ping "hi")) = ok input /\
    thrift_RequestToBytes Stub.env "ping" input = ok [Byte.x68; Byte.x69].
Proof.
  destruct (getRequest_result_comes_from_its_two_steps Stub.env
              (ROpts (Stub.ping "hi")) "ping" _
              (ok {| transport.Method := "Echo::ping";
                     transport.Body := [Byte.x68; Byte.x69] |}) eq_refl)
    as (input & Hi & He & _).
  exists input. split; assumption.
Defined.

(** ** Positional arguments, again *)

(** X10: [fromPositional] is idempotent: whenever it returns, running it
    again on the same arguments and the target it left changes nothing;
    and it never empties a target. *)
Theorem fromPositional_is_idempotent (args : list string) (index : Z)
  (s s' : string) :
  fromPositional args index s = Some s' ->
  fromPositional args index s' = Some s' /\
  (s <> EmptyString -> s' <> EmptyString).
Proof.
  unfold fromPositional.
  destruct (Z.of_nat (List.length args) <=? index)%Z.
  - intros [= <-]. split; [reflexivity | trivial].
  - destruct (index_string args index) as [a|]; [|discriminate].
    destruct (is_empty a) eqn:Ha; destruct (is_empty s) eqn:Hs; simpl;
      intros [= <-]; rewrite ?Ha, ?Hs; simpl.
    + split; [reflexivity | trivial].
    + split; [reflexivity | trivial].
    + split; [reflexivity|].
      intros _. apply is_empty_false. exact Ha.
    + split; [reflexivity | trivial].
Qed.

Lemma fromPositional_is_idempotent_witness :
  fromPositional ["echo"; "Echo::ping"] 1 "Echo::ping" = Some "Echo::ping".
Proof.
  apply (fromPositional_is_idempotent ["echo"; "Echo::ping"] 1
           EmptyString "Echo::ping").
  reflexivity.
Defined.

(** The options the three calls in [main] leave. *)
Lemma main_positional_value (remaining : list string) (opts : Options) :
  let pick (n : nat) (s : string) :=
    match nth_error remaining n with
    | Some a => if negb (is_empty a) && is_empty s then a else s
    | None => s
    end in
  main_positional remaining opts =
  Some {| TOpts := set_ServiceName (pick 0%nat (ServiceName (TOpts opts)))
                     (TOpts opts);
          ROpts := set_RequestJSON (pick 2%nat (RequestJSON (ROpts opts)))
                     (set_MethodName (pick 1%nat (MethodName (ROpts opts)))
                        (ROpts opts));
          BOpts := BOpts opts |}.
Proof.
  intro pick. unfold main_positional.
  rewrite !fromPositional_nonneg by lia. reflexivity.
Qed.

(** X12: the three calls in [main] never panic, and they decide the
    service name, the method name and the request body each in the same
    way: an option that is not empty keeps its value, and an option that is
    empty takes the first, second or third leftover argument (and stays
    empty when there is none).  Nothing else is touched: the Thrift file,
    the health flag, the peers and the benchmark options stay as the flags
    set them. *)
Theorem main_positional_fills_only_empty_options
  (remaining : list string) (opts : Options) :
  exists opts',
    main_positional remaining opts = Some opts' /\
    ThriftFile (ROpts opts') = ThriftFile (ROpts opts) /\
    Health (ROpts opts') = Health (ROpts opts) /\
    Peers (TOpts opts') = Peers (TOpts opts) /\
    BOpts opts' = BOpts opts /\
    ServiceName (TOpts opts') =
      (if is_empty (ServiceName (TOpts opts))
       then nth 0 remaining EmptyString
       else ServiceName (TOpts opts)) /\
    MethodName (ROpts opts') =
      (if is_empty (MethodName (ROpts opts))
       then nth 1 remaining EmptyString
       else MethodName (ROpts opts)) /\
    RequestJSON (ROpts opts') =
      (if is_empty (RequestJSON (ROpts opts))
       then nth 2 remaining EmptyString
       else RequestJSON (ROpts opts)).
Proof.
  assert (Hpick : forall (n : nat) (s : string),
            match nth_error remaining n with
            | Some a => if negb (is_empty a) && is_empty s then a else s
            | None => s
            end = if is_empty s then nth n remaining EmptyString else s).
  { intros n s. destruct (nth_error remaining n) as [a|] eqn:Hn.
    - rewrite (nth_error_nth remaining n EmptyString Hn).
      destruct (is_empty s) eqn:Hs.
      + rewrite andb_true_r. destruct (is_empty a) eqn:Ha; simpl;
          [|reflexivity].
        apply is_empty_true in Ha, Hs. congruence.
      + rewrite andb_false_r. reflexivity.
    - apply nth_error_None in Hn.
      rewrite (nth_overflow remaining EmptyString Hn).
      destruct (is_empty s) eqn:Hs; [|reflexivity].
      apply is_empty_true in Hs. exact Hs. }
  rewrite main_positional_value. eexists; split; [reflexivity|].
  cbn [TOpts ROpts BOpts ServiceName Peers ThriftFile MethodName RequestJSON
       Health set_ServiceName set_RequestJSON set_MethodName].
  rewrite !Hpick. repeat split.
Qed.

(** ** The program entry *)

Section EntryFacts.
Context {E : Env} {C : CommandLine}.

(** [main] once the three groups are found. *)
Lemma main_with_groups (g1 g2 g3 : Group C) :
  Group_Find C "transport" = Some g1 ->
  Group_Find C "request" = Some g2 ->
  Group_Find C "benchmark" = Some g3 ->
  main (E:=E) (C:=C) =
  if (List.length (os_Args C) <=? 1)%nat then
    (main_setup g1 g2 g3 ++ [call_WriteHelp], inl tt)
  else
    match parser_Parse C with
    | ParseFailed (flags_Error {| flags.ErrType := flags.ErrHelp |}) =>
        (main_setup g1 g2 g3 ++ [call_parser_Parse; call_os_Exit 0],
         inr (exits 0))
    | ParseFailed err =>
        (main_setup g1 g2 g3 ++
           [call_parser_Parse;
            call_log_Fatalf "Failed to parse flags: %v" err],
         inr (exits 1))
    | Parsed opts remaining =>
        match main_positional remaining opts with
        | Some opts' =>
            (main_setup g1 g2 g3 ++ call_parser_Parse ::
               map in_run (trace (runWithOptions (E:=E) opts')),
             match ending (runWithOptions (E:=E) opts') with
             | Done u => inl u
             | Exited => inr sink_exits
             end)
        | None =>
            (main_setup g1 g2 g3 ++ [call_parser_Parse],
             inr (panics "index out of range"))
        end
    end.
Proof.
  intros H1 H2 H3.
  unfold main, findGroup, main_bind, step, stops, positional, in_main.
  rewrite H1, H2, H3. simpl.
  destruct (List.length (os_Args C) <=? 1)%nat; [reflexivity|].
  destruct (parser_Parse C) as [opts remaining|err].
  - destruct (main_positional remaining opts) as [opts'|]; reflexivity.
  - destruct err as [[[|code] message]|err]; reflexivity.
Qed.

(** [main] when one of the three groups is not found: it panics at the
    first missing one, before it looks at the arguments. *)
Lemma main_without_group :
  Group_Find C "transport" = None \/ Group_Find C "request" = None \/
  Group_Find C "benchmark" = None ->
  exists t group,
    main (E:=E) (C:=C) =
      (t, inr (panics ("no group called " ++ group ++ " found."))) /\
    In group ["transport"; "request"; "benchmark"] /\
    Group_Find C group = None /\
    forallb (fun ev => match ev with
                       | call_WriteHelp | call_parser_Parse | in_run _
                       | call_os_Exit _ | call_log_Fatalf _ _ => false
                       | _ => true
                       end) t = true.
Proof.
  intro Hnone.
  unfold main, findGroup, main_bind, step, stops.
  destruct (Group_Find C "transport") as [g1|] eqn:H1.
  2: { exists [call_log_SetFlags 0; call_flags_NewParser;
               set_Usage "[<service> <method> <body>] [OPTIONS]";
               call_Group_Find "transport"], "transport".
       simpl. repeat split; auto. }
  destruct (Group_Find C "request") as [g2|] eqn:H2.
  2: { exists [call_log_SetFlags 0; call_flags_NewParser;
               set_Usage "[<service> <method> <body>] [OPTIONS]";
               call_Group_Find "transport";
               set_ShortDescription g1 "Transport Options";
               call_Group_Find "request"], "request".
       simpl. repeat split; auto. }
  destruct (Group_Find C "benchmark") as [g3|] eqn:H3.
  2: { exists [call_log_SetFlags 0; call_flags_NewParser;
               set_Usage "[<service> <method> <body>] [OPTIONS]";
               call_Group_Find "transport";
               set_ShortDescription g1 "Transport Options";
               call_Group_Find "request";
               set_ShortDescription g2 "Request Options";
               call_Group_Find "benchmark"], "benchmark".
       simpl. repeat split; auto. }
  destruct Hnone as [H | [H | H]]; discriminate H.
Qed.

End EntryFacts.

(** The method name of every transport call of a run. *)
Lemma call_method_name (E : Env) (opts : Options) (t : Transport E)
  (ctx : Context) (req : transport.Request) :
  In (call_Transport_Call t ctx req) (trace (runWithOptions (E:=E) opts)) ->
  transport.Method req = wire_method (E:=E) (ROpts opts).
Proof.
  intro Hin.
  assert (Hf : In (call_Transport_Call t ctx req)
                 (filter is_Call (trace (runWithOptions (E:=E) opts)))).
  { apply filter_In. split; [exact Hin | reflexivity]. }
  destruct (run_call_filter E opts)
    as [Hnone | (t0 & ropts & method & t' & t1 & req' & Hg & Ht & Hr & Hone)].
  - rewrite Hnone in Hf. destruct Hf.
  - rewrite Hone in Hf. destruct Hf as [Heq | []].
    injection Heq as <- <- <-.
    destruct (resolved_options E _ _ _ _ Hg) as (Hro & _).
    destruct (getRequest_returns ropts method) as (t1' & rq & Hr' & _ & Hinv).
    rewrite Hr in Hr'. injection Hr' as _ <-.
    destruct (Hinv req' eq_refl) as (input & _ & _ & Hm).
    rewrite Hm, Hro. reflexivity.
Qed.

(** No entry of the setup of [main] belongs to a run. *)
Lemma setup_has_no_run (E : Env) (C : CommandLine) (g1 g2 g3 : Group C)
  (ev : event E) :
  ~ In (in_run ev) (main_setup (E:=E) g1 g2 g3).
Proof.
  simpl. intros [H|[H|[H|[H|[H|[H|[H|[H|[H|[]]]]]]]]]]; discriminate H.
Qed.

(** X13: [main] starts a run only when the three groups were found, there
    is more than the program name on the command line and the flag parser
    accepted it; the run is then the one of [runWithOptions] on the parsed
    options completed by the positional arguments.  In particular nothing
    of a run, and so no network call, happens when a group is missing, on a
    bare invocation, on a request for help or on a flag error. *)
Theorem main_runs_only_after_successful_parse (E : Env) (C : CommandLine)
  (ev : event E) :
  In (in_run ev) (fst (main (E:=E) (C:=C))) ->
  (exists g1 g2 g3,
     Group_Find C "transport" = Some g1 /\
     Group_Find C "request" = Some g2 /\
     Group_Find C "benchmark" = Some g3) /\
  (1 < List.length (os_Args C))%nat /\
  exists opts remaining opts',
    parser_Parse C = Parsed opts remaining /\
    main_positional remaining opts = Some opts' /\
    In ev (trace (runWithOptions (E:=E) opts')).
Proof.
  intro Hin.
  destruct (Group_Find C "transport") as [g1|] eqn:H1.
  2: { destruct (main_without_group (E:=E) (C:=C) (or_introl H1))
         as (t & group & Hmain & _ & _ & Hall).
       rewrite Hmain in Hin. simpl in Hin.
       rewrite forallb_forall in Hall. apply Hall in Hin. discriminate Hin. }
  destruct (Group_Find C "request") as [g2|] eqn:H2.
  2: { destruct (main_without_group (E:=E) (C:=C) (or_intror (or_introl H2)))
         as (t & group & Hmain & _ & _ & Hall).
       rewrite Hmain in Hin. simpl in Hin.
       rewrite forallb_forall in Hall. apply Hall in Hin. discriminate Hin. }
  destruct (Group_Find C "benchmark") as [g3|] eqn:H3.
  2: { destruct (main_without_group (E:=E) (C:=C) (or_intror (or_intror H3)))
         as (t & group & Hmain & _ & _ & Hall).
       rewrite Hmain in Hin. simpl in Hin.
       rewrite forallb_forall in Hall. apply Hall in Hin. discriminate Hin. }
  rewrite (main_with_groups g1 g2 g3 H1 H2 H3) in Hin.
  destruct (Nat.leb_spec (List.length (os_Args C)) 1) as [Hle|Hlt].
  { cbn [fst] in Hin. apply in_app_or in Hin as [Hin|Hin].
    - destruct (setup_has_no_run E C g1 g2 g3 ev Hin).
    - destruct Hin as [H|[]]; discriminate H. }
  split; [exists g1, g2, g3; repeat split; reflexivity|].
  split; [exact Hlt|].
  destruct (parser_Parse C) as [opts remaining|err].
  - destruct (main_positional remaining opts) as [opts'|] eqn:Hpos.
    + exists opts, remaining, opts'.
      split; [reflexivity|]. split; [exact Hpos|].
      cbn [fst] in Hin. apply in_app_or in Hin as [Hin|Hin].
      * destruct (setup_has_no_run E C g1 g2 g3 ev Hin).
      * destruct Hin as [H|Hin]; [discriminate H|].
        apply in_map_iff in Hin as (ev' & Heq & Hin).
        injection Heq as <-. exact Hin.
    + cbn [fst] in Hin. apply in_app_or in Hin as [Hin|Hin].
      * destruct (setup_has_no_run E C g1 g2 g3 ev Hin).
      * destruct Hin as [H|[]]; discriminate H.
  - assert (Hno : forall l : list (main_event E C),
              l = [call_parser_Parse; call_os_Exit 0] \/
              l = [call_parser_Parse;
                   call_log_Fatalf "Failed to parse flags: %v" err] ->
              ~ In (in_run ev) (main_setup g1 g2 g3 ++ l)).
    { intros l Hl Hin'. apply in_app_or in Hin' as [Hin'|Hin'].
      - destruct (setup_has_no_run E C g1 g2 g3 ev Hin').
      - destruct Hl as [-> | ->];
          destruct Hin' as [H|[H|[]]]; discriminate H. }
    destruct err as [[[|code] message]|err]; cbn [fst] in Hin; exfalso;
      first [ exact (Hno _ (or_introl eq_refl) Hin)
            | exact (Hno _ (or_intror eq_refl) Hin) ].
Qed.

Lemma main_runs_only_after_successful_parse_witness :
  (exists g1 g2 g3,
     Group_Find StubLine.health_and_method "transport" = Some g1 /\
     Group_Find StubLine.health_and_method "request" = Some g2 /\
     Group_Find StubLine.health_and_method "benchmark" = Some g3) /\
  (1 < List.length (os_Args StubLine.health_and_method))%nat.
Proof.
  destruct (main_runs_only_after_successful_parse Stub.env
              StubLine.health_and_method
              (call_out_Fatalf parsing_input [op_error errHealthAndMethod]))
    as (Hgroups & Hargs & _).
  - simpl. tauto.
  - split; [exact Hgroups | exact Hargs].
Defined.

(** X14: a bare invocation and a request for help both end well.  With
    nothing but the program name in [os.Args], [main] writes the help and
    returns without calling the parser; when the parser returns a
    [*flags.Error] of type [ErrHelp], [main] calls [os.Exit(0)].  In
    neither case is anything logged as fatal. *)
Theorem main_help_ends_with_status_zero (E : Env) (C : CommandLine)
  (g1 g2 g3 : Group C) :
  Group_Find C "transport" = Some g1 ->
  Group_Find C "request" = Some g2 ->
  Group_Find C "benchmark" = Some g3 ->
  ((List.length (os_Args C) <= 1)%nat ->
   main (E:=E) (C:=C) = (main_setup g1 g2 g3 ++ [call_WriteHelp], inl tt)) /\
  (forall message,
     (1 < List.length (os_Args C))%nat ->
     parser_Parse C =
       ParseFailed (flags_Error {| flags.ErrType := flags.ErrHelp;
                                   flags.Message := message |}) ->
     main (E:=E) (C:=C) =
       (main_setup g1 g2 g3 ++ [call_parser_Parse; call_os_Exit 0],
        inr (exits 0))) /\
  ((List.length (os_Args C) <= 1)%nat \/
   (exists message,
      parser_Parse C =
        ParseFailed (flags_Error {| flags.ErrType := flags.ErrHelp;
                                    flags.Message := message |})) ->
   filter is_log_Fatalf (fst (main (E:=E) (C:=C))) = [] /\
   filter is_in_run (fst (main (E:=E) (C:=C))) = []).
Proof.
  intros H1 H2 H3. rewrite (main_with_groups g1 g2 g3 H1 H2 H3).
  split; [|split].
  - intro Hle. apply Nat.leb_le in Hle. rewrite Hle. reflexivity.
  - intros message Hlt Hp. apply Nat.leb_gt in Hlt. rewrite Hlt, Hp.
    reflexivity.
  - intros Hhelp.
    destruct (List.length (os_Args C) <=? 1)%nat eqn:Hlen.
    + split; reflexivity.
    + destruct Hhelp as [Hle | (message & Hp)].
      * apply Nat.leb_le in Hle. congruence.
      * rewrite Hp. split; reflexivity.
Qed.

Lemma main_help_ends_with_status_zero_witness :
  snd (main (E:=Stub.env) (C:=StubLine.help)) = inr (exits 0) /\
  snd (main (E:=Stub.env)
         (C:=StubLine.line ["yab"] (Parsed (Stub.ping "hi") []))) = inl tt.
Proof.
  destruct (main_help_ends_with_status_zero Stub.env StubLine.help
              _ _ _ eq_refl eq_refl eq_refl) as (_ & Hhelp & _).
  destruct (main_help_ends_with_status_zero Stub.env
              (StubLine.line ["yab"] (Parsed (Stub.ping "hi") []))
              _ _ _ eq_refl eq_refl eq_refl) as (Hbare & _).
  split.
  - rewrite (Hhelp "Usage" ltac:(simpl; lia) eq_refl). reflexivity.
  - rewrite (Hbare ltac:(simpl; lia)). reflexivity.
Defined.

(** X15: any other error of the flag parser, whether a [*flags.Error] of
    another type or an error of another kind, is logged with
    "Failed to parse flags: %v" and ends the process with status 1, before
    any positional argument is read and without a run. *)
Theorem main_flag_error_is_fatal (E : Env) (C : CommandLine)
  (g1 g2 g3 : Group C) (err : parse_error) :
  Group_Find C "transport" = Some g1 ->
  Group_Find C "request" = Some g2 ->
  Group_Find C "benchmark" = Some g3 ->
  (1 < List.length (os_Args C))%nat ->
  parser_Parse C = ParseFailed err ->
  (forall message,
     err <> flags_Error {| flags.ErrType := flags.ErrHelp;
                           flags.Message := message |}) ->
  main (E:=E) (C:=C) =
    (main_setup g1 g2 g3 ++
       [call_parser_Parse; call_log_Fatalf "Failed to parse flags: %v" err],
     inr (exits 1)) /\
  filter is_in_run (fst (main (E:=E) (C:=C))) = [].
Proof.
  intros H1 H2 H3 Hlt Hp Hnot.
  rewrite (main_with_groups g1 g2 g3 H1 H2 H3).
  apply Nat.leb_gt in Hlt. rewrite Hlt, Hp.
  destruct err as [[[|code] message]|err].
  - contradiction (Hnot message). reflexivity.
  - split; reflexivity.
  - split; reflexivity.
Qed.

Lemma main_flag_error_is_fatal_witness :
  snd (main (E:=Stub.env) (C:=StubLine.unknown_flag)) = inr (exits 1).
Proof.
  destruct (main_flag_error_is_fatal Stub.env StubLine.unknown_flag
              _ _ _ _ eq_refl eq_refl eq_refl ltac:(simpl; lia) eq_refl
              ltac:(intros message; discriminate)) as (Hmain & _).
  rewrite Hmain. reflexivity.
Defined.

(** X16: the health flag excludes a method name given as a positional
    argument just as it excludes one given by flag: when the parsed options
    have the health flag and the second leftover argument is not empty, the
    run [main] starts consists of the fatal report of
    [errHealthAndMethod] alone, and the sink ends the process. *)
Theorem health_flag_rejects_positional_method (E : Env) (C : CommandLine)
  (g1 g2 g3 : Group C) (opts : Options) (remaining : list string)
  (method : string) :
  Group_Find C "transport" = Some g1 ->
  Group_Find C "request" = Some g2 ->
  Group_Find C "benchmark" = Some g3 ->
  (1 < List.length (os_Args C))%nat ->
  parser_Parse C = Parsed opts remaining ->
  Health (ROpts opts) = true ->
  nth_error remaining 1 = Some method ->
  method <> EmptyString ->
  main (E:=E) (C:=C) =
    (main_setup g1 g2 g3 ++
       [call_parser_Parse;
        in_run (call_out_Fatalf parsing_input
                  [op_error errHealthAndMethod])],
     inr sink_exits).
Proof.
  intros H1 H2 H3 Hlt Hp Hh Hnth Hne.
  rewrite (main_with_groups g1 g2 g3 H1 H2 H3).
  apply Nat.leb_gt in Hlt. rewrite Hlt, Hp.
  pose proof (main_positional_value remaining opts) as Hpos.
  cbv zeta in Hpos. rewrite Hpos.
  match goal with
  | |- context [runWithOptions ?o] => set (opts' := o)
  end.
  assert (Hh' : Health (ROpts opts') = true) by exact Hh.
  assert (Hm' : MethodName (ROpts opts') <> EmptyString).
  { subst opts'. cbn [ROpts MethodName set_RequestJSON set_MethodName].
    rewrite Hnth. apply is_empty_false in Hne. rewrite Hne. simpl.
    destruct (is_empty (MethodName (ROpts opts))) eqn:Hflag.
    - apply is_empty_false. exact Hne.
    - apply is_empty_false. exact Hflag. }
  pose proof (getMethodSpec_health_conflict (E:=E) (ROpts opts') Hh' Hm')
    as Hg.
  rewrite (run_resolution_fails opts' [] (ROpts opts') _ Hg).
  reflexivity.
Qed.

Lemma health_flag_rejects_positional_method_witness :
  snd (main (E:=Stub.env) (C:=StubLine.health_and_method)) = inr sink_exits.
Proof.
  rewrite (health_flag_rejects_positional_method Stub.env
             StubLine.health_and_method _ _ _ _ _ "Echo::ping"
             eq_refl eq_refl eq_refl ltac:(simpl; lia) eq_refl eq_refl
             eq_refl ltac:(discriminate)).
  reflexivity.
Defined.

(** X17: [findGroup] guards everything [main] does.  Either the three
    groups "transport", "request" and "benchmark" are all found and [main]
    begins with its setup on them, or [main] panics with "no group called
    ... found." naming a group that [Find] did not return, having written
    no help, parsed nothing and run nothing. *)
Theorem main_needs_its_three_groups (E : Env) (C : CommandLine) :
  (exists g1 g2 g3 rest,
     Group_Find C "transport" = Some g1 /\
     Group_Find C "request" = Some g2 /\
     Group_Find C "benchmark" = Some g3 /\
     fst (main (E:=E) (C:=C)) = main_setup g1 g2 g3 ++ rest)
  \/
  (exists group,
     In group ["transport"; "request"; "benchmark"] /\
     Group_Find C group = None /\
     snd (main (E:=E) (C:=C)) =
       inr (panics ("no group called " ++ group ++ " found.")) /\
     ~ In call_WriteHelp (fst (main (E:=E) (C:=C))) /\
     ~ In call_parser_Parse (fst (main (E:=E) (C:=C))) /\
     forall ev, ~ In (in_run ev) (fst (main (E:=E) (C:=C)))).
Proof.
  assert (Hpanic :
    Group_Find C "transport" = None \/ Group_Find C "request" = None \/
    Group_Find C "benchmark" = None ->
    exists group,
      In group ["transport"; "request"; "benchmark"] /\
      Group_Find C group = None /\
      snd (main (E:=E) (C:=C)) =
        inr (panics ("no group called " ++ group ++ " found.")) /\
      ~ In call_WriteHelp (fst (main (E:=E) (C:=C))) /\
      ~ In call_parser_Parse (fst (main (E:=E) (C:=C))) /\
      forall ev, ~ In (in_run ev) (fst (main (E:=E) (C:=C)))).
  { intro Hnone.
    destruct (main_without_group (E:=E) (C:=C) Hnone)
      as (t & group & Hmain & Hin & Hfind & Hall).
    exists group. rewrite Hmain. cbn [fst snd].
    rewrite forallb_forall in Hall.
    repeat split; try assumption;
      try (intro H; apply Hall in H; discriminate H).
    intros ev H. apply Hall in H. discriminate H. }
  destruct (Group_Find C "transport") as [g1|] eqn:H1; [|right; auto].
  destruct (Group_Find C "request") as [g2|] eqn:H2; [|right; auto].
  destruct (Group_Find C "benchmark") as [g3|] eqn:H3; [|right; auto].
  left. exists g1, g2, g3.
  rewrite (main_with_groups g1 g2 g3 H1 H2 H3).
  destruct (List.length (os_Args C) <=? 1)%nat.
  { eexists. repeat split. }
  destruct (parser_Parse C) as [opts remaining|err].
  - destruct (main_positional remaining opts) as [opts'|];
      eexists; repeat split.
  - destruct err as [[[|code] message]|err]; eexists; repeat split.
Qed.

(** X18: the method name [main] puts on the wire.  Without the health
    flag, every transport call of the run [main] starts carries as its
    [Method] the method name given by flag, or, if none was given by flag,
    the second leftover argument (the empty string if there is none). *)
Theorem main_sends_flag_or_positional_method (E : Env) (C : CommandLine)
  (g1 g2 g3 : Group C) (opts : Options) (remaining : list string)
  (t : Transport E) (ctx : Context) (req : transport.Request) :
  Group_Find C "transport" = Some g1 ->
  Group_Find C "request" = Some g2 ->
  Group_Find C "benchmark" = Some g3 ->
  (1 < List.length (os_Args C))%nat ->
  parser_Parse C = Parsed opts remaining ->
  Health (ROpts opts) = false ->
  In (in_run (call_Transport_Call t ctx req)) (fst (main (E:=E) (C:=C))) ->
  transport.Method req =
    if is_empty (MethodName (ROpts opts))
    then nth 1 remaining EmptyString
    else MethodName (ROpts opts).
Proof.
  intros H1 H2 H3 Hlt Hp Hh Hin.
  rewrite (main_with_groups g1 g2 g3 H1 H2 H3) in Hin.
  apply Nat.leb_gt in Hlt. rewrite Hlt, Hp in Hin.
  pose proof (main_positional_value remaining opts) as Hpos.
  cbv zeta in Hpos. rewrite Hpos in Hin.
  match type of Hin with
  | context [runWithOptions ?o] => set (opts' := o) in Hin
  end.
  cbn [fst] in Hin. apply in_app_or in Hin as [Hin|Hin].
  { destruct (setup_has_no_run E C g1 g2 g3 _ Hin). }
  destruct Hin as [H|Hin]; [discriminate H|].
  apply in_map_iff in Hin as (ev & Heq & Hin). injection Heq as ->.
  rewrite (call_method_name E opts' t ctx req Hin).
  unfold wire_method.
  assert (Hh' : Health (ROpts opts') = false) by exact Hh.
  rewrite Hh'. subst opts'.
  cbn [ROpts MethodName set_RequestJSON set_MethodName].
  destruct (nth_error remaining 1) as [a|] eqn:Hnth.
  - rewrite (nth_error_nth remaining 1 EmptyString Hnth).
    destruct (is_empty (MethodName (ROpts opts))) eqn:Hflag.
    + rewrite andb_true_r.
      destruct (is_empty a) eqn:Ha; simpl; [|reflexivity].
      apply is_empty_true in Ha, Hflag. congruence.
    + rewrite andb_false_r. reflexivity.
  - apply nth_error_None in Hnth.
    rewrite (nth_overflow remaining EmptyString Hnth).
    destruct (is_empty (MethodName (ROpts opts))) eqn:Hflag;
      [|reflexivity].
    apply is_empty_true in Hflag. exact Hflag.
Qed.

Lemma main_sends_flag_or_positional_method_witness :
  transport.Method
    {| transport.Method := "Echo::ping";
       transport.Body := [Byte.x68; Byte.x69] |} =
  nth 1 ["echo"; "Echo::ping"; "hi"] EmptyString.
Proof.
  apply (main_sends_flag_or_positional_method Stub.env StubLine.ping
           _ _ _ _ ["echo"; "Echo::ping"; "hi"] tt call_context
           {| transport.Method := "Echo::ping";
              transport.Body := [Byte.x68; Byte.x69] |}
           eq_refl eq_refl eq_refl ltac:(simpl; lia) eq_refl eq_refl).
  simpl. tauto.
Defined.
